(* ===== verification/_CoqProject ===== *)
-Q . S2P
Prelude.v
Json.v
Bytes.v
Sha256.v
Md5.v
Crypto.v
Transaction.v
Block.v
Mining.v
Chain.v
Wallet.v
