(* ===== verification/Prelude.v ===== *)
(** * MYFirstBlockChain: a verified model of [src/index.ts]

    ** The program
    [src/index.ts] is a single-process ledger in four classes.
    [Transaction] (lines 4-15) is an amount, a payer key and a payee key,
    serialised by [toString] = [JSON.stringify(this)].  [Block]
    (lines 18-34) holds the previous block's hash, one transaction, a
    timestamp and a random nonce; its [hash] getter is the SHA-256 digest of
    [JSON.stringify(this)].  [Chain] (lines 37-86) is a singleton holding the
    array of blocks, created with a genesis block; [addBlock] verifies an
    RSA signature over the transaction's [toString], builds a block linked to
    [lastBlock.hash], runs the proof-of-work loop [mine] on the block's nonce
    (and discards its result) and pushes the block.  [Wallet]
    (lines 89-112) owns a key pair and [sendMoney] signs a transaction and
    calls [Chain.instance.addBlock].  The script (lines 115-123) makes three
    wallets and three payments.  Node's [crypto] module and [JSON.stringify]
    are the libraries the program calls.

    ** The development (library root: this directory)
    Files in dependency order ([_CoqProject]):
    - [Prelude] (this file): the [completion] type of JavaScript outcomes
      ([Normal], [Throw] of an exception that propagates, [Diverge] when the
      fuel runs out) with its bind, notation ([js_scope]), inversion lemmas,
      tactics ([inv], [bind_inv]), hint databases ([ledger], [js],
      [ledger_rw]) and list and string lemmas.
    - [Json]: [JSON.stringify] on the values the program builds
      (QuoteJSONString, Number::toString on integers, objects), a decoder
      for its image, the round trip [decode_stringify] and injectivity.
    - [Bytes]: the data of Node's hash objects: bytes and 32-bit words as
      [Z] with their wrap-around written out ([add32], [rotr32], byte
      packing in both byte orders), UTF-8 for [hash.update(str)],
      [digest('hex')], and the padding both digests share, with the lemmas
      the digests rely on (rotation, UTF-8 and hex round trips, padding).
    - [Sha256], [Md5]: the two digests as FIPS 180-4 and RFC 1321 define
      them.  The SHA-256 constants are computed from their definition
      (roots of primes) with an integer root [iroot] proved to be the root
      ([iroot_ok]); the digests have 32 and 16 bytes.
    - [Crypto]: the [crypto] operations as type classes ([Digests] for
      SHA-256/MD5 hex digests, [Signer] for key generation, [sign] and
      [verify], which may throw) and their laws ([DigestLaws]: the hex
      shape; [SignerLaws]: signatures of generated keys verify, and a
      signature verifies only under its own key and message).
      [Crypto.Node] is Node's [Digests], built from [Sha256] and [Md5],
      with its laws; the example [node_test_vectors] evaluates it by
      [vm_compute] on the standards' test vectors.  [Crypto.Ideal] gives
      symbolic instances used by the witnesses.  Every component is proved
      against the classes, so its theorems hold for Node's digests and for
      any other instance.
    - [Transaction], [Block]: records with the source's fields in creation
      order, [toString], [hash], and the proofs that the serialisation
      loses nothing (C6, C15).  A [Random] is a value [Math.random()] may
      return (a double in [[0, 1)]); [new_Block] receives one and computes
      the nonce of line 19, [Math.round(Math.random() * 999999999)], in
      binary64 arithmetic ([random_nonce]: round to nearest even at a
      53-bit significand, then [Math.round]).  The nonce lies in
      [[0, 999999999]] for every draw (C26); the example
      [random_nonce_samples] checks JavaScript's values on sample draws.
    - [Mining]: [mine] as a fuelled loop [mine_loop]; [mine] returns exactly
      the least positive solution once the fuel covers it (C5), returns
      whenever a solution exists (C9), never returns otherwise (C10), and
      hashes the numeric sum of seed and counter (C24).  With Node's MD5
      the test [substr(0,4) === '0000'] holds exactly when the digest's
      first two bytes are zero, the leading 16 bits of the specification
      (C28).  [mine_exec] is the loop without fuel, a big-step relation,
      and [mine_exec_iff] shows the fuelled loop computes exactly its
      results; the example [mine_node_5320] runs the real MD5.
    - [Chain]: the state ([Chain], the block array), [Chain_new],
      [lastBlock], [addBlock], the invariant [valid_chain] (genesis first,
      every [prevHash] the hash of its predecessor) and its [Prop] form
      [Linked]; [reachable] is the step relation of the singleton.  Theorems:
      the invariant on every reachable chain and its preservation (C1, C2),
      the range of every stored nonce (C27) and, under [DigestLaws], the
      shape of every stored [prevHash] (C25); [addBlock] on each branch
      (C3, C4, C8, C20-C22); the chain is append-only (C13); it refines
      the abstract ledger [authorise] / [ledger_reachable] (C11, C12); for
      a collision-free digest the last block fixes the history (C14); the
      mined solution never reaches the stored state (C23).  Under
      [SignerLaws] a signature under another key never adds a block (C7),
      but the payer field is not bound to the signer (C18), and replays are
      accepted (C19).  The example [addBlock_node_run] runs [addBlock]
      with Node's digests and reproduces the genesis hash Node prints.
    - [Wallet]: [Wallet_new], [sendMoney], the script [main]; a payment
      appends its block (C16), the script yields the four-transaction ledger
      (C17).

    ** Environment and fuel
    [Date.now()] and [Math.random()] ([now : Z], [rnd : Random]) are
    inputs of [new_Block], [addBlock], [sendMoney] and [main], which
    quantify over them: [Date.now()] is only stored, and [Random] holds
    every value ECMA-262 allows [Math.random()] to return.  The [n]-th
    [generateKeyPairSync] call is [generateKeyPair n].  The mining loop has
    no bound in the source, so every operation that mines takes a [fuel];
    C5 and C9 show that fuel equal to the least solution is enough and C10
    that no fuel is enough when there is no solution, so the fuel never
    changes a result, only whether one is reached.  Numbers are integers
    ([Z]); JavaScript's addition [nonce + solution] agrees with [Z] while
    the sum stays below [2^53], which a nonce below [10^9] keeps for more
    than [2^52] iterations.  Hash words are [Z] kept below [2^32] by
    [Bytes.add32].

    ** Not modelled
    [console.log] output (I/O only); fractional amounts (the script uses
    integers; [Number::toString] is modelled for integers below [10^21]);
    RSA key generation, signing and verification (library code with PEM
    parsing and 2048-bit arithmetic; stated as the [Signer] interface with
    [SignerLaws], since its unforgeability is a computational assumption
    rather than a property a model of the arithmetic would prove).
    [JSON.stringify] is modelled for the values the program builds
    (strings, integers, objects); arrays, booleans, [null] and
    non-integral numbers never reach it in the script.  The key order of a
    serialised block follows TypeScript's default emit; a build with
    [useDefineForClassFields] would print [nonce] first and hash
    differently, and the repository has no compiler configuration to
    decide it. *)

From Stdlib Require Import String Ascii ZArith List Lia.
Import ListNotations.

(** ** JavaScript completions

    Every operation of the program runs on one thread and either returns a
    value, throws an exception that propagates to the caller (the program has
    no [try]/[catch]), or never returns (the mining loop).  A [completion] is
    the outcome of running a modelled operation with a given amount of fuel:
    [Diverge] means that the fuel ran out, and the theorems of [Mining] and
    [Chain] say exactly when enough fuel exists. *)

Inductive js_error : Type :=
| TypeError (msg : string)
| CryptoError (msg : string).

Inductive completion (A : Type) : Type :=
| Normal (a : A)
| Throw (e : js_error)
| Diverge.
Arguments Normal {A} a.
Arguments Throw {A} e.
Arguments Diverge {A}.

Definition ret {A : Type} (a : A) : completion A := Normal a.

Definition bind {A B : Type} (m : completion A) (k : A -> completion B)
  : completion B :=
  match m with
  | Normal a => k a
  | Throw e => Throw e
  | Diverge => Diverge
  end.

Declare Scope js_scope.
Delimit Scope js_scope with js.
Notation "x <- m ;; k" := (bind m (fun x => k))
  (at level 61, m at next level, right associativity) : js_scope.
Notation "m ;; k" := (bind m (fun _ => k))
  (at level 61, right associativity) : js_scope.
Open Scope js_scope.

(** A completion is [Normal] in a decidable way. *)
Definition is_normal {A : Type} (m : completion A) : bool :=
  match m with Normal _ => true | _ => false end.

Create HintDb ledger discriminated.
Create Rewrite HintDb js.
Create Rewrite HintDb ledger_rw.

(** ** Monad laws and inversion lemmas for [completion] *)

Lemma bind_normal {A B : Type} (a : A) (k : A -> completion B) :
  bind (Normal a) k = k a.
Proof. reflexivity. Qed.

Lemma bind_throw {A B : Type} (e : js_error) (k : A -> completion B) :
  bind (Throw e) k = Throw e.
Proof. reflexivity. Qed.

Lemma bind_diverge {A B : Type} (k : A -> completion B) :
  bind Diverge k = Diverge.
Proof. reflexivity. Qed.

Lemma bind_ret_r {A : Type} (m : completion A) : bind m ret = m.
Proof. destruct m; reflexivity. Qed.

Lemma bind_assoc {A B C : Type} (m : completion A) (k : A -> completion B)
      (h : B -> completion C) :
  bind (bind m k) h = bind m (fun a => bind (k a) h).
Proof. destruct m; reflexivity. Qed.

#[export] Hint Rewrite @bind_normal @bind_throw @bind_diverge @bind_ret_r
  @bind_assoc : js.

Lemma bind_eq_normal {A B : Type} (m : completion A) (k : A -> completion B)
      (b : B) :
  bind m k = Normal b <-> exists a, m = Normal a /\ k a = Normal b.
Proof.
  split.
  - destruct m as [a| |]; simpl; intros H; [eauto|discriminate|discriminate].
  - intros (a & -> & H). exact H.
Qed.

Lemma bind_eq_throw {A B : Type} (m : completion A) (k : A -> completion B)
      (e : js_error) :
  bind m k = Throw e <-> m = Throw e \/ exists a, m = Normal a /\ k a = Throw e.
Proof.
  split.
  - destruct m as [a| e'|]; simpl; intros H; [eauto|inversion H; auto|discriminate].
  - intros [-> | (a & -> & H)]; [reflexivity | exact H].
Qed.

(** ** Tactics shared by the development *)

Ltac inv H := inversion H; subst; clear H.

(** Split a hypothesis [bind m k = Normal b] into its two halves. *)
Ltac bind_inv :=
  repeat match goal with
  | H : bind _ _ = Normal _ |- _ =>
      apply bind_eq_normal in H; destruct H as (? & ? & ?)
  end.

(** ** Lists *)

Lemma last_snoc {A : Type} (l : list A) (x d : A) : last (l ++ [x]) d = x.
Proof. induction l as [|y [|z l] IH]; simpl; auto. Qed.

Lemma nth_error_snoc_length {A : Type} (l : list A) (x : A) :
  nth_error (l ++ [x]) (length l) = Some x.
Proof. rewrite nth_error_app2, Nat.sub_diag; reflexivity. Qed.

Lemma nth_error_snoc_lt {A : Type} (l : list A) (x : A) (i : nat) :
  i < length l -> nth_error (l ++ [x]) i = nth_error l i.
Proof. intros H. apply nth_error_app1. exact H. Qed.

Lemma nth_error_last {A : Type} (l : list A) (d : A) :
  l <> [] -> nth_error l (pred (length l)) = Some (last l d).
Proof.
  intros Hne. destruct (exists_last Hne) as (l' & x & ->).
  rewrite last_snoc, length_app; simpl.
  replace (pred (length l' + 1)) with (length l') by lia.
  apply nth_error_snoc_length.
Qed.

Lemma snoc_neq_nil {A : Type} (l : list A) (x : A) : l ++ [x] <> [].
Proof. intros E. apply app_eq_nil in E as [_ E]. discriminate. Qed.

#[export] Hint Resolve snoc_neq_nil : ledger.

#[export] Hint Rewrite @last_snoc @nth_error_snoc_length : ledger_rw.

(** ** Strings *)

#[local] Open Scope string_scope.

Lemma str_app_assoc (a b c : string) : (a ++ b) ++ c = a ++ (b ++ c).
Proof. induction a as [|x a IH]; simpl; [reflexivity | now rewrite IH]. Qed.

Lemma str_app_nil_r (a : string) : a ++ "" = a.
Proof. induction a as [|x a IH]; simpl; [reflexivity | now rewrite IH]. Qed.

Lemma str_app_cons (c : ascii) (a b : string) :
  String c a ++ b = String c (a ++ b).
Proof. reflexivity. Qed.

Lemma str_length_app (a b : string) :
  String.length (a ++ b) = String.length a + String.length b.
Proof. induction a as [|x a IH]; simpl; [reflexivity | now rewrite IH]. Qed.

Lemma str_app_inv_l (p a b : string) : p ++ a = p ++ b -> a = b.
Proof. induction p as [|x p IH]; simpl; [auto | intros H; injection H; auto]. Qed.

#[export] Hint Rewrite str_app_assoc str_app_nil_r str_length_app : ledger_rw.


