(* ===== verification/Json.v ===== *)
(** * [JSON.stringify] on the values the program serialises

    [Transaction.toString] (src/index.ts:12-14) and the [Block.hash] getter
    (src/index.ts:28-33) both call [JSON.stringify(this)].  This file models
    the part of ECMA-262's [JSON.stringify] (SerializeJSONProperty,
    SerializeJSONObject, QuoteJSONString, Number::toString) that these calls
    reach: objects whose own enumerable properties are strings, integral
    numbers and nested such objects, serialised without indentation.  It also
    gives a decoder for the image of [stringify] and proves the round trip,
    hence that [stringify] is injective: the canonical encoding of the spec
    (sections 3 and 4.1) determines the value it encodes. *)

From Stdlib Require Import String Ascii ZArith List Lia Bool DecimalString DecimalZ.
From S2P Require Import Prelude.
Import ListNotations.
#[local] Open Scope string_scope.
#[local] Open Scope bool_scope.
#[local] Open Scope nat_scope.

Module Json.

(** JSON values as the program produces them: the [amount], [ts] and
    [nonce] fields are integral numbers, the keys and hashes are strings, and
    [Transaction] objects nest inside [Block] objects.  [jfields] lists an
    object's own enumerable properties in property-creation order. *)
Inductive jvalue : Type :=
| JNum (z : Z)
| JStr (s : string)
| JObj (fields : jfields)
with jfields : Type :=
| JNil
| JField (key : string) (v : jvalue) (rest : jfields).

Scheme jvalue_ind2 := Induction for jvalue Sort Prop
  with jfields_ind2 := Induction for jfields Sort Prop.
Combined Scheme jvalue_mutind from jvalue_ind2, jfields_ind2.

(** *** QuoteJSONString (ECMA-262, 25.5.2.3)

    A Rocq [ascii] is a code unit below 256.  None of them is a surrogate,
    so the surrogate case of the specification does not arise. *)

(** The quotation mark, code unit 34. *)
Definition dquote : ascii := ascii_of_nat 34.
Arguments dquote : simpl never.

(** The lowercase hexadecimal digit of [n < 16]. *)
Definition hex_digit (n : nat) : ascii :=
  ascii_of_nat (if n <? 10 then 48 + n else 87 + n).

(** UnicodeEscape(C): ["\u"] and four lowercase hexadecimal digits. *)
Definition unicode_escape (n : nat) : string :=
  String "\" (String "u"
    (String (hex_digit (n / 4096 mod 16))
    (String (hex_digit (n / 256 mod 16))
    (String (hex_digit (n / 16 mod 16))
    (String (hex_digit (n mod 16)) ""))))).

(** One code unit, following the table of QuoteJSONString: the short
    escapes for backspace, tab, line feed, form feed, carriage return,
    quotation mark and reverse solidus, [\u00XX] for the other control
    characters, and the code unit itself otherwise. *)
Definition quote_char (c : ascii) : string :=
  let n := nat_of_ascii c in
  if n =? 8 then "\b"
  else if n =? 9 then "\t"
  else if n =? 10 then "\n"
  else if n =? 12 then "\f"
  else if n =? 13 then "\r"
  else if n =? 34 then String "\" (String dquote "")
  else if n =? 92 then "\\"
  else if n <? 32 then unicode_escape n
  else String c "".

Fixpoint quote_body (s : string) : string :=
  match s with
  | "" => ""
  | String c s' => quote_char c ++ quote_body s'
  end.

Definition quote (s : string) : string := String dquote (quote_body s ++ String dquote "").

(** *** Number::toString on integral numbers

    For an integral number [z] with [|z| < 10^21] the result is its decimal
    representation without leading zeros, preceded by ["-"] when [z < 0]
    (Number::toString, steps 1-6 with [k <= n <= 21]).  Every number of the
    program lies far inside this range (see [Block] and [Mining]). *)
Definition number_to_string (z : Z) : string :=
  NilEmpty.string_of_int (Z.to_int z).

(** *** SerializeJSONObject without gap: ["{}"] for no property, otherwise
    ["{"], the properties [quote key ++ ":" ++ value] joined by [","], and
    ["}"]. *)
Fixpoint stringify (v : jvalue) : string :=
  match v with
  | JNum z => number_to_string z
  | JStr s => quote s
  | JObj JNil => "{}"
  | JObj fs => "{" ++ stringify_fields fs ++ "}"
  end
with stringify_fields (fs : jfields) : string :=
  match fs with
  | JNil => ""
  | JField k v rest =>
      quote k ++ ":" ++ stringify v ++
      match rest with
      | JNil => ""
      | _ => "," ++ stringify_fields rest
      end
  end.

(** ** A decoder for the image of [stringify]

    The decoder is the verification's own left inverse of [stringify]; it
    is not a model of [JSON.parse] (it accepts ["-"] and leading zeros,
    for instance), and nothing of the program calls it. *)

Definition hex_value (c : ascii) : option nat :=
  let n := nat_of_ascii c in
  if (48 <=? n) && (n <=? 57) then Some (n - 48)
  else if (97 <=? n) && (n <=? 102) then Some (n - 87)
  else None.

Definition hex4 (a b c d : ascii) : option nat :=
  match hex_value a, hex_value b, hex_value c, hex_value d with
  | Some x, Some y, Some z, Some w => Some (((x * 16 + y) * 16 + z) * 16 + w)
  | _, _, _, _ => None
  end.

(** The code unit denoted by a one-character escape [\e]. *)
Definition short_escape (e : ascii) : option ascii :=
  let n := nat_of_ascii e in
  if n =? 98 then Some (ascii_of_nat 8)
  else if n =? 116 then Some (ascii_of_nat 9)
  else if n =? 110 then Some (ascii_of_nat 10)
  else if n =? 102 then Some (ascii_of_nat 12)
  else if n =? 114 then Some (ascii_of_nat 13)
  else if n =? 34 then Some e
  else if n =? 92 then Some e
  else None.

Definition cons_fst (c : ascii) (r : option (string * string))
  : option (string * string) :=
  match r with
  | Some (s, rest) => Some (String c s, rest)
  | None => None
  end.

(** The characters of a string literal after its opening quote: the
    decoded contents and the input after the closing quote. *)
Fixpoint parse_chars (s : string) : option (string * string) :=
  match s with
  | "" => None
  | String c s' =>
      if nat_of_ascii c =? 34 then Some ("", s')
      else if nat_of_ascii c =? 92 then
        match s' with
        | "" => None
        | String e s'' =>
            match short_escape e with
            | Some d => cons_fst d (parse_chars s'')
            | None =>
                if nat_of_ascii e =? 117 then
                  match s'' with
                  | String a (String b (String x (String y s3))) =>
                      match hex4 a b x y with
                      | Some n => if n <? 256 then cons_fst (ascii_of_nat n) (parse_chars s3)
                                  else None
                      | None => None
                      end
                  | _ => None
                  end
                else None
            end
        end
      else if nat_of_ascii c <? 32 then None
      else cons_fst c (parse_chars s')
  end.

Definition is_num_char (c : ascii) : bool :=
  let n := nat_of_ascii c in (n =? 45) || ((48 <=? n) && (n <=? 57)).

(** The longest prefix made of digits and ["-"], and the rest. *)
Fixpoint span_num (s : string) : string * string :=
  match s with
  | String c s' =>
      if is_num_char c then let (d, r) := span_num s' in (String c d, r)
      else ("", s)
  | "" => ("", "")
  end.

Definition parse_number (s : string) : option (Z * string) :=
  let (d, r) := span_num s in
  match NilEmpty.int_of_string d with
  | Some i => Some (Z.of_int i, r)
  | None => None
  end.

Fixpoint parse_value (fuel : nat) (s : string) : option (jvalue * string) :=
  match fuel with
  | O => None
  | S f =>
      match s with
      | "" => None
      | String c s' =>
          if nat_of_ascii c =? 34 then
            match parse_chars s' with
            | Some (str, r) => Some (JStr str, r)
            | None => None
            end
          else if nat_of_ascii c =? 123 then
            match s' with
            | String "}" r => Some (JObj JNil, r)
            | _ => match parse_fields f s' with
                   | Some (fs, r) => Some (JObj fs, r)
                   | None => None
                   end
            end
          else if is_num_char c then
            match parse_number s with
            | Some (z, r) => Some (JNum z, r)
            | None => None
            end
          else None
      end
  end
with parse_fields (fuel : nat) (s : string) : option (jfields * string) :=
  match fuel with
  | O => None
  | S f =>
      match s with
      | String q s' =>
          if nat_of_ascii q =? 34 then
            match parse_chars s' with
            | Some (k, String ":" r2) =>
                match parse_value f r2 with
                | Some (v, String "," r4) =>
                    match parse_fields f r4 with
                    | Some (rest, r5) => Some (JField k v rest, r5)
                    | None => None
                    end
                | Some (v, String "}" r4) => Some (JField k v JNil, r4)
                | _ => None
                end
            | _ => None
            end
          else None
      | "" => None
      end
  end.

Fixpoint jsize (v : jvalue) : nat :=
  match v with
  | JNum _ | JStr _ => 1
  | JObj fs => S (fsize fs)
  end
with fsize (fs : jfields) : nat :=
  match fs with
  | JNil => 1
  | JField _ v rest => S (jsize v + fsize rest)
  end.

Definition decode (s : string) : option jvalue :=
  match parse_value (S (String.length s)) s with
  | Some (v, "") => Some v
  | _ => None
  end.

(** ** Round trip *)

(** The decoder undoes [quote_char] on every code unit.  The proof goes
    through the 256 code units: each one is a closed computation. *)
Lemma parse_quote_char (c : ascii) (t : string) :
  parse_chars (quote_char c ++ t) = cons_fst c (parse_chars t).
Proof. destruct c as [[] [] [] [] [] [] [] []]; reflexivity. Qed.

Lemma parse_quote_body (s t : string) :
  parse_chars (quote_body s ++ String dquote t) = Some (s, t).
Proof.
  induction s as [|c s IH]; [reflexivity|].
  simpl. rewrite str_app_assoc, parse_quote_char, IH. reflexivity.
Qed.

(** Numbers: every character of [number_to_string z] is a digit or ["-"],
    and the string is not empty. *)
Fixpoint all_num (s : string) : bool :=
  match s with
  | "" => true
  | String c s' => is_num_char c && all_num s'
  end.

(** The input after a number does not continue it. *)
Definition clean (rest : string) : bool :=
  match rest with
  | "" => true
  | String c _ => negb (is_num_char c)
  end.

Lemma all_num_uint (d : Decimal.uint) : all_num (NilEmpty.string_of_uint d) = true.
Proof. induction d; simpl; auto. Qed.

Lemma all_num_number (z : Z) : all_num (number_to_string z) = true.
Proof.
  unfold number_to_string. destruct (Z.to_int z) as [d|d]; simpl;
    apply all_num_uint.
Qed.

Lemma number_to_string_nonempty (z : Z) : number_to_string z <> "".
Proof.
  unfold number_to_string. intros H.
  pose proof (NilEmpty.isi (Z.to_int z)) as Hi. rewrite H in Hi.
  simpl in Hi. injection Hi as Hi.
  pose proof (DecimalZ.of_to z) as Hz. rewrite <- Hi in Hz.
  simpl in Hz. subst z. discriminate Hi.
Qed.

Lemma span_num_all (d rest : string) :
  all_num d = true -> clean rest = true -> span_num (d ++ rest) = (d, rest).
Proof.
  intros Hd Hr. induction d as [|c d IH]; simpl in *.
  - destruct rest as [|c rest]; simpl in *; [reflexivity|].
    destruct (is_num_char c); [discriminate | reflexivity].
  - apply andb_prop in Hd as [Hc Hd]. rewrite Hc, IH by exact Hd. reflexivity.
Qed.

Lemma parse_number_to_string (z : Z) (rest : string) :
  clean rest = true -> parse_number (number_to_string z ++ rest) = Some (z, rest).
Proof.
  intros Hr. unfold parse_number.
  rewrite span_num_all by (apply all_num_number || exact Hr).
  unfold number_to_string. rewrite NilEmpty.isi, DecimalZ.of_to. reflexivity.
Qed.

Lemma number_head (z : Z) :
  exists c t, number_to_string z = String c t /\ is_num_char c = true.
Proof.
  pose proof (all_num_number z) as Ha. pose proof (number_to_string_nonempty z) as Hn.
  destruct (number_to_string z) as [|c t]; [congruence|].
  simpl in Ha. apply andb_prop in Ha as [Hc _]. eauto.
Qed.

Lemma num_char_not_special (c : ascii) :
  is_num_char c = true ->
  (nat_of_ascii c =? 34) = false /\ (nat_of_ascii c =? 123) = false.
Proof.
  unfold is_num_char. intros H.
  apply orb_prop in H as [H|H].
  - apply Nat.eqb_eq in H. rewrite H. auto.
  - apply andb_prop in H as [H1 H2]. apply Nat.leb_le in H1, H2.
    split; apply Nat.eqb_neq; lia.
Qed.

Lemma parse_value_num (f : nat) (z : Z) (rest : string) :
  clean rest = true ->
  parse_value (S f) (number_to_string z ++ rest) = Some (JNum z, rest).
Proof.
  intros Hr. pose proof (parse_number_to_string z rest Hr) as Hp.
  destruct (number_head z) as (c & t & Heq & Hc).
  rewrite Heq in *. simpl.
  destruct (num_char_not_special c Hc) as [-> ->]. rewrite Hc.
  simpl in Hp. rewrite Hp. reflexivity.
Qed.

Lemma clean_comma (r : string) : clean ("," ++ r) = true.
Proof. reflexivity. Qed.

Lemma clean_brace (r : string) : clean ("}" ++ r) = true.
Proof. reflexivity. Qed.

#[local] Hint Resolve clean_comma clean_brace : core.

Lemma fields_head (k : string) (v : jvalue) (r : jfields) :
  exists t, stringify_fields (JField k v r) = String dquote t.
Proof. eexists. reflexivity. Qed.

(** The decoder reads back what [stringify] writes, whatever follows it
    that does not continue a number, provided the fuel covers the value's
    size. *)
Lemma parse_stringify :
  (forall v f rest, jsize v <= f -> clean rest = true ->
     parse_value f (stringify v ++ rest) = Some (v, rest)) /\
  (forall fs f rest, fs <> JNil -> fsize fs <= f ->
     parse_fields f (stringify_fields fs ++ "}" ++ rest) = Some (fs, rest)).
Proof.
  apply (jvalue_mutind
    (fun v => forall f rest, jsize v <= f -> clean rest = true ->
       parse_value f (stringify v ++ rest) = Some (v, rest))
    (fun fs => forall f rest, fs <> JNil -> fsize fs <= f ->
       parse_fields f (stringify_fields fs ++ "}" ++ rest) = Some (fs, rest))).
  - intros z f rest Hf Hr. destruct f as [|f]; [simpl in Hf; lia|].
    apply parse_value_num, Hr.
  - intros s f rest Hf _. destruct f as [|f]; [simpl in Hf; lia|].
    unfold stringify, quote. simpl. rewrite ?str_app_assoc. simpl.
    rewrite parse_quote_body. reflexivity.
  - intros fs IH f rest Hf _. destruct f as [|f]; [simpl in Hf; lia|].
    destruct fs as [|k v r]; [reflexivity|]. simpl in Hf.
    pose proof (IH f rest ltac:(discriminate) ltac:(simpl; lia)) as H.
    change (stringify (JObj (JField k v r)))
      with ("{" ++ stringify_fields (JField k v r) ++ "}").
    destruct (fields_head k v r) as [t Ht]. rewrite Ht in *.
    rewrite ?str_app_assoc. simpl in H |- *. rewrite H. reflexivity.
  - intros f rest H. congruence.
  - intros k v IHv r IHr f rest _ Hf. destruct f as [|f]; [simpl in Hf; lia|].
    simpl in Hf. destruct r as [|k' v' r'].
    + pose proof (IHv f ("}" ++ rest) ltac:(lia) eq_refl) as H1.
      change (stringify_fields (JField k v JNil))
        with (quote k ++ ":" ++ stringify v ++ "").
      set (sv := stringify v) in *. clearbody sv.
      unfold quote. simpl in H1 |- *. rewrite ?str_app_nil_r, ?str_app_assoc.
      simpl in H1 |- *. rewrite parse_quote_body, H1. reflexivity.
    + pose proof (IHv f ("," ++ stringify_fields (JField k' v' r') ++ "}" ++ rest)
                    ltac:(lia) eq_refl) as H1.
      pose proof (IHr f rest ltac:(discriminate) ltac:(simpl in *; lia)) as H2.
      change (stringify_fields (JField k v (JField k' v' r')))
        with (quote k ++ ":" ++ stringify v ++ "," ++ stringify_fields (JField k' v' r')).
      set (sv := stringify v) in *. set (sr := stringify_fields (JField k' v' r')) in *.
      clearbody sv sr.
      unfold quote. simpl in H1 |- *. rewrite ?str_app_assoc. simpl in H1, H2 |- *.
      rewrite ?str_app_assoc. simpl. rewrite parse_quote_body, H1, H2. reflexivity.
Qed.

Lemma jsize_stringify :
  (forall v, jsize v <= String.length (stringify v)) /\
  (forall fs, fsize fs <= S (String.length (stringify_fields fs))).
Proof.
  apply jvalue_mutind.
  - intros z. pose proof (number_to_string_nonempty z).
    simpl. destruct (number_to_string z); [congruence | simpl; lia].
  - intros s. simpl. unfold quote. rewrite !str_length_app. simpl. lia.
  - intros [|k v r] IH; [simpl; lia|].
    change (stringify (JObj (JField k v r)))
      with ("{" ++ stringify_fields (JField k v r) ++ "}").
    rewrite !str_length_app. simpl in *. lia.
  - simpl. lia.
  - intros k v IHv r IHr.
    change (stringify_fields (JField k v r)) with
      (quote k ++ ":" ++ stringify v ++
       match r with JNil => "" | _ => "," ++ stringify_fields r end).
    unfold quote. rewrite !str_length_app.
    destruct r as [|k' v' r']; [simpl; lia|].
    change (fsize (JField k v (JField k' v' r')))
      with (S (jsize v + fsize (JField k' v' r'))).
    set (sr := stringify_fields (JField k' v' r')) in *.
    set (fr := fsize (JField k' v' r')) in *. clearbody sr fr.
    simpl. lia.
Qed.

(** [decode] inverts [stringify]. *)
Theorem decode_stringify (v : jvalue) : decode (stringify v) = Some v.
Proof.
  unfold decode. pose proof (proj1 jsize_stringify v) as Hs.
  pose proof (proj1 parse_stringify v (S (String.length (stringify v))) ""
                ltac:(lia) eq_refl) as H.
  rewrite str_app_nil_r in H. rewrite H. reflexivity.
Qed.

(** Hence [JSON.stringify] is injective on the values the program builds. *)
Lemma stringify_inj (v1 v2 : jvalue) : stringify v1 = stringify v2 -> v1 = v2.
Proof.
  intros H. apply (f_equal decode) in H. rewrite !decode_stringify in H.
  congruence.
Qed.


End Json.
