(* ===== verification/Bytes.v ===== *)
(** * Bytes, 32-bit words and hexadecimal: the data of Node's hash objects

    [crypto.createHash(alg).update(str)] encodes the JavaScript string [str]
    as UTF-8 (the default encoding of [update]), the digest algorithms work
    on 32-bit words with wrap-around, and [digest('hex')] prints the digest
    bytes as lowercase hexadecimal.  This file holds those three layers:
    bytes and words as [Z] with their width written out ([Z.land] with
    [Z.ones], [Z.shiftr], [Z.lor]), the byte/word packing both hash
    functions use (big-endian for SHA-256, little-endian for MD5), the
    message padding they share, UTF-8 and hexadecimal, each with its
    decoder and round trip. *)

From Stdlib Require Import String Ascii ZArith List Lia Bool.
From S2P Require Import Prelude Json.
Import ListNotations.
#[local] Open Scope Z_scope.

Module Bytes.

(** ** Bytes and 32-bit words *)

Definition is_byte (b : Z) : bool := (0 <=? b) && (b <? 256).
Definition bytes_ok (l : list Z) : bool := forallb is_byte l.

(** [x] kept at 32 bits: the unsigned value of [x] modulo [2^32]. *)
Definition wrap32 (x : Z) : Z := Z.land x (Z.ones 32).

Definition add32 (x y : Z) : Z := wrap32 (x + y).
Definition not32 (x : Z) : Z := Z.lxor x (Z.ones 32).

(** Rotations of a 32-bit word by [0 < n < 32] places. *)
Definition rotr32 (x n : Z) : Z := Z.lor (Z.shiftr x n) (wrap32 (Z.shiftl x (32 - n))).
Definition rotl32 (x n : Z) : Z := rotr32 x (32 - n).

Definition in32 (x : Z) : Prop := 0 <= x < 2 ^ 32.

(** [n] bytes of [w], least significant first, and their inverse
    (the [le_split]/[le_combine] of little-endian memory). *)
Fixpoint le_split (n : nat) (w : Z) : list Z :=
  match n with
  | O => []
  | S n' => Z.land w 255 :: le_split n' (Z.shiftr w 8)
  end.

Fixpoint le_combine (l : list Z) : Z :=
  match l with
  | [] => 0
  | b :: l' => Z.lor b (Z.shiftl (le_combine l') 8)
  end.

Definition be_split (n : nat) (w : Z) : list Z := rev (le_split n w).
Definition be_combine (l : list Z) : Z := le_combine (rev l).

(** A message of bytes read four at a time as words. *)
Fixpoint words (combine : list Z -> Z) (l : list Z) : list Z :=
  match l with
  | b0 :: b1 :: b2 :: b3 :: r => combine [b0; b1; b2; b3] :: words combine r
  | _ => []
  end.

(** ** Lemmas on words *)

Lemma wrap32_mod (x : Z) : wrap32 x = x mod 2 ^ 32.
Proof. unfold wrap32. apply Z.land_ones. lia. Qed.

Lemma wrap32_range (x : Z) : in32 (wrap32 x).
Proof. rewrite wrap32_mod. apply Z.mod_pos_bound. lia. Qed.

Lemma wrap32_id (x : Z) : in32 x -> wrap32 x = x.
Proof. intros H. rewrite wrap32_mod. apply Z.mod_small. exact H. Qed.

Lemma add32_range (x y : Z) : in32 (add32 x y).
Proof. apply wrap32_range. Qed.

#[export] Hint Resolve wrap32_range add32_range : ledger.

Lemma add32_spec (x y : Z) : add32 x y = (x + y) mod 2 ^ 32.
Proof. apply wrap32_mod. Qed.

Lemma testbit_wrap32 (x i : Z) :
  0 <= i -> Z.testbit (wrap32 x) i = Z.testbit x i && (i <? 32).
Proof.
  intros Hi. unfold wrap32. rewrite Z.land_spec, Z.testbit_ones by lia.
  rewrite (proj2 (Z.leb_le 0 i) Hi). reflexivity.
Qed.

(** A number below [2^k] has no bit at [k] or above. *)
Lemma testbit_small (a k i : Z) : 0 <= a < 2 ^ k -> 0 <= k <= i -> Z.testbit a i = false.
Proof.
  intros Ha Hi. apply Z.testbit_false; [lia|].
  rewrite Z.div_small; [reflexivity|]. split; [lia|].
  apply (Z.lt_le_trans _ (2 ^ k)); [lia | apply Z.pow_le_mono_r; lia].
Qed.

Lemma testbit_in32 (x i : Z) : in32 x -> 32 <= i -> Z.testbit x i = false.
Proof. intros Hx Hi. apply (testbit_small _ 32); [exact Hx | lia]. Qed.

(** Putting a byte below a shifted number is addition. *)
Lemma lor_shiftl8 (a x : Z) : 0 <= a < 256 -> Z.lor a (Z.shiftl x 8) = a + x * 256.
Proof.
  intros Ha. rewrite Z.shiftl_mul_pow2 by lia. change (2 ^ 8) with 256.
  assert (Hd : Z.land a (x * 256) = 0).
  { apply Z.bits_inj'. intros i Hi. rewrite Z.land_spec, Z.bits_0.
    destruct (Z.ltb_spec i 8).
    - change 256 with (2 ^ 8). rewrite <- Z.shiftl_mul_pow2 by lia.
      rewrite Z.shiftl_spec_low by lia. apply andb_false_r.
    - rewrite (testbit_small a 8) by lia. reflexivity. }
  rewrite <- Z.lxor_lor by exact Hd. symmetry. apply Z.add_nocarry_lxor, Hd.
Qed.

(** [rotr32] is the 32-bit right rotation of FIPS 180-4 ([ROTR]; and
    [rotl32], MD5's [<<<]): on a 32-bit word it moves bit
    [(i + n) mod 32] to bit [i] and sets no bit above the 32nd. *)
Lemma rotr32_spec (x n i : Z) :
  in32 x -> 0 < n < 32 -> 0 <= i ->
  Z.testbit (rotr32 x n) i = (i <? 32) && Z.testbit x ((i + n) mod 32).
Proof.
  intros Hx Hn Hi. unfold rotr32.
  rewrite Z.lor_spec, Z.shiftr_spec, testbit_wrap32 by lia.
  destruct (Z.ltb_spec i 32) as [Hlt|Hge]; rewrite ?andb_true_r, ?andb_false_r;
    cbn [andb].
  - destruct (Z.ltb_spec (i + n) 32) as [Hs|Hs].
    + rewrite Z.mod_small by lia.
      rewrite Z.shiftl_spec_low by lia. apply orb_false_r.
    + rewrite testbit_in32 by (assumption || lia). cbn [orb].
      rewrite Z.shiftl_spec by lia. f_equal.
      rewrite <- (Z.mod_small (i - (32 - n)) 32) by lia.
      rewrite <- (Z.mod_add _ 1 32) by lia. f_equal. lia.
  - rewrite testbit_in32 by (assumption || lia). reflexivity.
Qed.

(** ** Byte packing *)

Lemma length_le_split (n : nat) (w : Z) : length (le_split n w) = n.
Proof. revert w. induction n; simpl; auto. Qed.

Lemma length_be_split (n : nat) (w : Z) : length (be_split n w) = n.
Proof. unfold be_split. rewrite length_rev. apply length_le_split. Qed.

Lemma bytes_ok_cons (b : Z) (l : list Z) :
  bytes_ok (b :: l) = true <-> 0 <= b < 256 /\ bytes_ok l = true.
Proof.
  unfold bytes_ok, is_byte. simpl. rewrite !andb_true_iff, Z.leb_le, Z.ltb_lt.
  tauto.
Qed.

Lemma bytes_ok_app (l1 l2 : list Z) :
  bytes_ok (l1 ++ l2) = bytes_ok l1 && bytes_ok l2.
Proof. apply forallb_app. Qed.

Lemma bytes_ok_rev (l : list Z) : bytes_ok (rev l) = bytes_ok l.
Proof.
  induction l as [|b l IH]; simpl; [reflexivity|].
  rewrite bytes_ok_app, IH. simpl. rewrite andb_true_r. apply andb_comm.
Qed.

Lemma le_split_bytes (n : nat) (w : Z) : bytes_ok (le_split n w) = true.
Proof.
  revert w. induction n as [|n IH]; intros w; [reflexivity|].
  apply bytes_ok_cons. split; [|apply IH].
  change 255 with (Z.ones 8). rewrite Z.land_ones by lia.
  apply Z.mod_pos_bound. lia.
Qed.

Lemma be_split_bytes (n : nat) (w : Z) : bytes_ok (be_split n w) = true.
Proof. unfold be_split. rewrite bytes_ok_rev. apply le_split_bytes. Qed.

Lemma le_combine_range (l : list Z) :
  bytes_ok l = true -> 0 <= le_combine l < 2 ^ (8 * Z.of_nat (length l)).
Proof.
  induction l as [|b l IH]; cbn [le_combine length]; intros H; [lia|].
  apply bytes_ok_cons in H as [Hb Hl]. specialize (IH Hl).
  rewrite lor_shiftl8 by exact Hb.
  rewrite Nat2Z.inj_succ, Z.mul_succ_r, Z.pow_add_r by lia. lia.
Qed.

(** Splitting a number into [n] bytes and putting them back keeps it
    modulo [2^(8n)]. *)
Lemma le_combine_split (n : nat) (w : Z) :
  le_combine (le_split n w) = w mod 2 ^ (8 * Z.of_nat n).
Proof.
  revert w. induction n as [|n IH]; intros w; cbn [le_split le_combine].
  - rewrite Z.mod_1_r. reflexivity.
  - rewrite IH. change 255 with (Z.ones 8). rewrite Z.land_ones by lia.
    rewrite lor_shiftl8 by (apply Z.mod_pos_bound; lia).
    rewrite Z.shiftr_div_pow2 by lia.
    replace (8 * Z.of_nat (S n)) with (8 + 8 * Z.of_nat n) by lia.
    rewrite Z.pow_add_r, Z.rem_mul_r by lia. change (2 ^ 8) with 256. lia.
Qed.

(** Reading bytes as a number and splitting it again gives the bytes. *)
Lemma le_split_combine (l : list Z) :
  bytes_ok l = true -> le_split (length l) (le_combine l) = l.
Proof.
  induction l as [|b l IH]; cbn [le_combine length]; intros H; [reflexivity|].
  apply bytes_ok_cons in H as [Hb Hl]. cbn [le_split].
  rewrite lor_shiftl8 by exact Hb. change 255 with (Z.ones 8).
  rewrite Z.land_ones, Z.shiftr_div_pow2 by lia. change (2 ^ 8) with 256.
  rewrite Z_mod_plus_full, Z.mod_small by exact Hb.
  rewrite Z_div_plus_full, Z.div_small by (exact Hb || lia).
  simpl. rewrite IH by exact Hl. reflexivity.
Qed.

Lemma be_combine_split (n : nat) (w : Z) :
  be_combine (be_split n w) = w mod 2 ^ (8 * Z.of_nat n).
Proof. unfold be_combine, be_split. rewrite rev_involutive. apply le_combine_split. Qed.

Lemma be_split_combine (l : list Z) :
  bytes_ok l = true -> be_split (length l) (be_combine l) = l.
Proof.
  intros H. unfold be_split, be_combine. rewrite <- length_rev.
  rewrite le_split_combine by (rewrite bytes_ok_rev; exact H).
  apply rev_involutive.
Qed.

(** ** Hexadecimal: [digest('hex')] *)

(** The lowercase digit of the low four bits of [n]. *)
Definition hexd (n : Z) : ascii := Json.hex_digit (Z.to_nat (Z.land n 15)).

(** Two digits per byte, high half first. *)
Fixpoint to_hex (l : list Z) : string :=
  match l with
  | [] => EmptyString
  | b :: l' => String (hexd (Z.shiftr b 4)) (String (hexd b) (to_hex l'))
  end.

Fixpoint of_hex (s : string) : option (list Z) :=
  match s with
  | EmptyString => Some []
  | String h (String l r) =>
      match Json.hex_value h, Json.hex_value l, of_hex r with
      | Some x, Some y, Some t => Some (Z.of_nat (x * 16 + y) :: t)
      | _, _, _ => None
      end
  | String _ EmptyString => None
  end.

(** Every character is a lowercase hexadecimal digit. *)
Fixpoint is_hex (s : string) : bool :=
  match s with
  | EmptyString => true
  | String c s' => match Json.hex_value c with Some _ => is_hex s' | None => false end
  end.

Lemma hex_value_digit (n : nat) :
  (n < 16)%nat -> Json.hex_value (Json.hex_digit n) = Some n.
Proof. intros H. do 16 (destruct n as [|n]; [reflexivity|]). lia. Qed.

Lemma land15_range (n : Z) : (Z.to_nat (Z.land n 15) < 16)%nat.
Proof.
  change 15 with (Z.ones 4). rewrite Z.land_ones by lia.
  pose proof (Z.mod_pos_bound n (2 ^ 4)). change (2 ^ 4) with 16 in *. lia.
Qed.

Lemma hex_value_hexd (n : Z) : Json.hex_value (hexd n) = Some (Z.to_nat (Z.land n 15)).
Proof. apply hex_value_digit, land15_range. Qed.

Lemma length_to_hex (l : list Z) : String.length (to_hex l) = (2 * length l)%nat.
Proof. induction l as [|b l IH]; simpl; [reflexivity | rewrite IH; lia]. Qed.

Lemma is_hex_to_hex (l : list Z) : is_hex (to_hex l) = true.
Proof. induction l as [|b l IH]; simpl; [reflexivity|]. now rewrite !hex_value_hexd. Qed.

Lemma hex_byte (b : Z) :
  0 <= b < 256 ->
  Z.of_nat (Z.to_nat (Z.land (Z.shiftr b 4) 15) * 16 + Z.to_nat (Z.land b 15)) = b.
Proof.
  intros Hb. change 15 with (Z.ones 4). rewrite !Z.land_ones, Z.shiftr_div_pow2 by lia.
  change (2 ^ 4) with 16.
  pose proof (Z.mod_pos_bound b 16). pose proof (Z.mod_pos_bound (b / 16) 16).
  rewrite (Z.mod_small (b / 16)) by (split; [apply Z.div_pos | apply Z.div_lt_upper_bound]; lia).
  rewrite Nat2Z.inj_add, Nat2Z.inj_mul, !Z2Nat.id by (apply Z.div_pos || idtac; lia).
  pose proof (Z.div_mod b 16). lia.
Qed.

(** A digit is ["0"] exactly when the low four bits are 0. *)
Lemma hexd_zero (n : Z) : hexd n = "0"%char <-> Z.land n 15 = 0.
Proof.
  split.
  - intros H. apply (f_equal Json.hex_value) in H. rewrite hex_value_hexd in H.
    injection H as H. assert (0 <= Z.land n 15) by (apply Z.land_nonneg; lia). lia.
  - intros H. unfold hexd. rewrite H. reflexivity.
Qed.

(** The two digits of a byte are ["00"] exactly when the byte is 0. *)
Lemma hex_byte_zero (b : Z) :
  0 <= b < 256 -> (hexd (Z.shiftr b 4) = "0"%char /\ hexd b = "0"%char <-> b = 0).
Proof.
  intros Hb. rewrite !hexd_zero. split.
  - intros [Hh Hl]. rewrite <- (hex_byte b Hb), Hh, Hl. reflexivity.
  - intros ->. split; reflexivity.
Qed.

(** The hexadecimal text of bytes starts with ["0000"] exactly when the
    first two bytes are 0. *)
Lemma to_hex_zero2 (b0 b1 : Z) (rest : list Z) :
  0 <= b0 < 256 -> 0 <= b1 < 256 ->
  (String.eqb (substring 0 4 (to_hex (b0 :: b1 :: rest))) "0000"%string = true <->
   b0 = 0 /\ b1 = 0).
Proof.
  intros H0 H1. cbn [to_hex substring].
  replace (substring 0 0 (to_hex rest)) with ""%string by (destruct (to_hex rest); reflexivity).
  rewrite String.eqb_eq, <- (hex_byte_zero b0 H0), <- (hex_byte_zero b1 H1). split.
  - intros E. injection E as E1 E2 E3 E4. tauto.
  - intros [[-> ->] [-> ->]]. reflexivity.
Qed.

(** Reading the digits back gives the bytes. *)
Lemma of_hex_to_hex (l : list Z) : bytes_ok l = true -> of_hex (to_hex l) = Some l.
Proof.
  induction l as [|b l IH]; intros H; [reflexivity|].
  apply bytes_ok_cons in H as [Hb Hl]. simpl. rewrite !hex_value_hexd, IH by exact Hl.
  rewrite hex_byte by exact Hb. reflexivity.
Qed.

Lemma to_hex_inj (l1 l2 : list Z) :
  bytes_ok l1 = true -> bytes_ok l2 = true -> to_hex l1 = to_hex l2 -> l1 = l2.
Proof.
  intros H1 H2 E. apply (f_equal of_hex) in E. rewrite !of_hex_to_hex in E by assumption.
  congruence.
Qed.

(** ** UTF-8: [hash.update(str)]

    A Rocq [ascii] is a UTF-16 code unit below 256 (see [Json]), so UTF-8
    needs one byte below 128 and two bytes, [110xxxxx 10xxxxxx], above. *)

Definition code (c : ascii) : Z := Z.of_nat (nat_of_ascii c).

Definition utf8_char (c : ascii) : list Z :=
  let n := code c in
  if n <? 128 then [n]
  else [Z.lor 192 (Z.shiftr n 6); Z.lor 128 (Z.land n 63)].

Fixpoint utf8_encode (s : string) : list Z :=
  match s with
  | EmptyString => []
  | String c s' => utf8_char c ++ utf8_encode s'
  end.

(** The decoder of the one- and two-byte forms, which rejects overlong
    forms and code points above 255. *)
Fixpoint utf8_decode (l : list Z) : option string :=
  match l with
  | [] => Some EmptyString
  | b :: r =>
      if (0 <=? b) && (b <? 128) then
        option_map (String (ascii_of_nat (Z.to_nat b))) (utf8_decode r)
      else match r with
      | b2 :: r' =>
          let n := Z.lor (Z.shiftl (Z.land b 31) 6) (Z.land b2 63) in
          if (Z.land b 224 =? 192) && (Z.land b2 192 =? 128) && (128 <=? n) && (n <? 256)
          then option_map (String (ascii_of_nat (Z.to_nat n))) (utf8_decode r')
          else None
      | [] => None
      end
  end.

Lemma code_range (c : ascii) : 0 <= code c < 256.
Proof. unfold code. pose proof (nat_ascii_bounded c). lia. Qed.

Lemma ascii_of_code (c : ascii) : ascii_of_nat (Z.to_nat (code c)) = c.
Proof. unfold code. rewrite Nat2Z.id. apply ascii_nat_embedding. Qed.

(** The two bytes of a code unit [128 <= n < 256] and their fields. *)
Lemma utf8_two_bytes (n : Z) :
  128 <= n < 256 ->
  Z.land (Z.lor 192 (Z.shiftr n 6)) 224 = 192 /\
  Z.land (Z.lor 128 (Z.land n 63)) 192 = 128 /\
  Z.lor (Z.shiftl (Z.land (Z.lor 192 (Z.shiftr n 6)) 31) 6)
        (Z.land (Z.lor 128 (Z.land n 63)) 63) = n /\
  ~ (0 <= Z.lor 192 (Z.shiftr n 6) < 128) /\
  bytes_ok [Z.lor 192 (Z.shiftr n 6); Z.lor 128 (Z.land n 63)] = true.
Proof.
  intros Hn.
  assert (Hc : forall m, 0 <= m < 256 -> m = n -> 
    Z.land (Z.lor 192 (Z.shiftr m 6)) 224 = 192 /\
    Z.land (Z.lor 128 (Z.land m 63)) 192 = 128 /\
    Z.lor (Z.shiftl (Z.land (Z.lor 192 (Z.shiftr m 6)) 31) 6)
          (Z.land (Z.lor 128 (Z.land m 63)) 63) = m /\
    ~ (0 <= Z.lor 192 (Z.shiftr m 6) < 128) /\
    bytes_ok [Z.lor 192 (Z.shiftr m 6); Z.lor 128 (Z.land m 63)] = true).
  { intros m Hm ->. destruct Hn as [Hlo Hhi].
    assert (Z.to_nat n - 128 < 128)%nat as Hk by lia.
    replace n with (128 + Z.of_nat (Z.to_nat n - 128)) by lia.
    generalize (Z.to_nat n - 128)%nat Hk. clear.
    intros k Hk. do 128 (destruct k as [|k]; [vm_compute; intuition discriminate|]).
    lia. }
  apply Hc; lia.
Qed.

(** Decoding the UTF-8 bytes of a string gives the string. *)
Lemma utf8_decode_encode (s : string) : utf8_decode (utf8_encode s) = Some s.
Proof.
  induction s as [|c s IH]; [reflexivity|]. simpl utf8_encode. unfold utf8_char.
  pose proof (code_range c) as Hc.
  destruct (Z.ltb_spec (code c) 128) as [Hlt|Hge]; cbn [app utf8_decode].
  - replace ((0 <=? code c) && (code c <? 128)) with true
      by (symmetry; apply andb_true_iff; split; [apply Z.leb_le | apply Z.ltb_lt]; lia).
    rewrite IH, ascii_of_code. reflexivity.
  - destruct (utf8_two_bytes (code c)) as (H1 & H2 & H3 & H4 & _); [lia|].
    replace ((0 <=? Z.lor 192 (Z.shiftr (code c) 6)) &&
             (Z.lor 192 (Z.shiftr (code c) 6) <? 128)) with false
      by (symmetry; apply not_true_iff_false; rewrite andb_true_iff, Z.leb_le, Z.ltb_lt;
          exact H4).
    rewrite H1, H2, H3, IH. cbn [Z.eqb andb option_map Pos.eqb].
    replace ((128 <=? code c) && (code c <? 256)) with true
      by (symmetry; apply andb_true_iff; split; [apply Z.leb_le | apply Z.ltb_lt]; lia).
    rewrite ascii_of_code. reflexivity.
Qed.

Lemma utf8_encode_inj (s1 s2 : string) : utf8_encode s1 = utf8_encode s2 -> s1 = s2.
Proof.
  intros E. apply (f_equal utf8_decode) in E. rewrite !utf8_decode_encode in E.
  congruence.
Qed.

Lemma utf8_encode_app (s1 s2 : string) :
  utf8_encode (s1 ++ s2) = utf8_encode s1 ++ utf8_encode s2.
Proof. induction s1 as [|c s1 IH]; simpl; [reflexivity|]. now rewrite IH, app_assoc. Qed.

Lemma utf8_encode_bytes (s : string) : bytes_ok (utf8_encode s) = true.
Proof.
  induction s as [|c s IH]; [reflexivity|]. simpl. rewrite bytes_ok_app, IH, andb_true_r.
  unfold utf8_char. pose proof (code_range c).
  destruct (Z.ltb_spec (code c) 128).
  - apply bytes_ok_cons. split; [lia | reflexivity].
  - apply utf8_two_bytes. lia.
Qed.

(** ** Message padding (RFC 1321 section 3.1-3.2, FIPS 180-4 section 5.1.1)

    Both algorithms append the byte [0x80], then zero bytes up to 56
    modulo 64, then the message length in bits modulo [2^64] on eight
    bytes: little-endian for MD5 ([le_split 8]), big-endian for SHA-256
    ([be_split 8]).  The padded message is cut into 64-byte blocks. *)

Definition pad_zeros (n : nat) : nat := Z.to_nat ((55 - Z.of_nat n) mod 64).

Definition pad (len_bytes : Z -> list Z) (m : list Z) : list Z :=
  m ++ [128] ++ repeat 0 (pad_zeros (length m)) ++ len_bytes (8 * Z.of_nat (length m)).

Fixpoint blocks (n : nat) (l : list Z) : list (list Z) :=
  match n with
  | O => []
  | S n' => firstn 64 l :: blocks n' (skipn 64 l)
  end.

Definition chunks (l : list Z) : list (list Z) := blocks (length l / 64) l.

Section Padding.
Variable len_bytes : Z -> list Z.
Hypothesis len_bytes_8 : forall z, length (len_bytes z) = 8%nat.

Lemma length_pad (m : list Z) :
  length (pad len_bytes m) = (length m + 9 + pad_zeros (length m))%nat.
Proof.
  unfold pad. rewrite !length_app, repeat_length, len_bytes_8. simpl. lia.
Qed.

(** The padded message fills whole blocks, and at most one more block
    than the message needs: [0 <= pad_zeros < 64]. *)
Lemma pad_blocks (m : list Z) :
  (length (pad len_bytes m) mod 64 = 0 /\
   length m + 9 <= length (pad len_bytes m) < length m + 73)%nat.
Proof.
  rewrite length_pad. unfold pad_zeros.
  pose proof (Z.mod_pos_bound (55 - Z.of_nat (length m)) 64) as Hb.
  pose proof (Z.div_mod (55 - Z.of_nat (length m)) 64) as Hd.
  assert (Hr : (Z.to_nat ((55 - Z.of_nat (length m)) mod 64) < 64)%nat)
    by (apply Nat2Z.inj_lt; rewrite Z2Nat.id; lia).
  split; [|lia]. apply Nat2Z.inj. rewrite Nat2Z.inj_mod, !Nat2Z.inj_add, Z2Nat.id by lia.
  change (Z.of_nat 64) with 64. change (Z.of_nat 9) with 9.
  apply Z.mod_divide; [lia|].
  exists (1 - (55 - Z.of_nat (length m)) / 64). lia.
Qed.

Hypothesis len_bytes_ok : forall z, bytes_ok (len_bytes z) = true.

Lemma pad_bytes (m : list Z) : bytes_ok m = true -> bytes_ok (pad len_bytes m) = true.
Proof.
  intros H. unfold pad. rewrite !bytes_ok_app, H, len_bytes_ok, andb_true_r. simpl.
  generalize (pad_zeros (length m)). intros k. induction k; simpl; auto.
Qed.

End Padding.

Lemma bytes_ok_firstn (n : nat) (l : list Z) : bytes_ok l = true -> bytes_ok (firstn n l) = true.
Proof.
  intros H. rewrite <- (firstn_skipn n l), bytes_ok_app in H.
  apply andb_prop in H as [H _]. exact H.
Qed.

Lemma bytes_ok_skipn (n : nat) (l : list Z) : bytes_ok l = true -> bytes_ok (skipn n l) = true.
Proof.
  intros H. rewrite <- (firstn_skipn n l), bytes_ok_app in H.
  apply andb_prop in H as [_ H]. exact H.
Qed.

Lemma chunks_bytes (l : list Z) :
  bytes_ok l = true -> Forall (fun b => bytes_ok b = true) (chunks l).
Proof.
  unfold chunks. generalize (length l / 64)%nat. intros n. revert l.
  induction n as [|n IH]; intros l H; cbn [blocks]; constructor.
  - apply bytes_ok_firstn, H.
  - apply IH, bytes_ok_skipn, H.
Qed.

(** Both paddings fill whole 64-byte blocks, adding between 9 and 72
    bytes, and keep the message as a prefix. *)
Lemma pad_shape (m : list Z) :
  forall len_bytes, len_bytes = be_split 8 \/ len_bytes = le_split 8 ->
  (length (pad len_bytes m) mod 64 = 0 /\
   length m + 9 <= length (pad len_bytes m) < length m + 73)%nat /\
  firstn (length m) (pad len_bytes m) = m.
Proof.
  intros f Hf. split.
  - apply pad_blocks. intros z. destruct Hf as [->| ->];
      [apply length_be_split | apply length_le_split].
  - unfold pad. rewrite firstn_app, Nat.sub_diag, firstn_all. apply app_nil_r.
Qed.

Lemma blocks_concat (n : nat) (l : list Z) :
  length l = (64 * n)%nat -> concat (blocks n l) = l /\ Forall (fun b => length b = 64%nat) (blocks n l).
Proof.
  revert l. induction n as [|n IH]; intros l Hl; cbn [blocks concat].
  - destruct l; [split; constructor | discriminate].
  - destruct (IH (skipn 64 l)) as [Hc Hf]; [rewrite length_skipn; lia|].
    rewrite Hc, firstn_skipn. split; [reflexivity|].
    constructor; [rewrite length_firstn; lia | exact Hf].
Qed.

(** Cutting a whole number of blocks loses nothing, and every block has
    64 bytes. *)
Lemma chunks_concat (l : list Z) :
  (length l mod 64 = 0)%nat ->
  concat (chunks l) = l /\ Forall (fun b => length b = 64%nat) (chunks l).
Proof.
  intros H. apply blocks_concat. pose proof (Nat.div_mod_eq (length l) 64). lia.
Qed.

(** ** Witnesses *)


End Bytes.
