(* ===== verification/Sha256.v ===== *)
(** * SHA-256 (FIPS 180-4), the digest of [Block.hash]

    [crypto.createHash('SHA256').update(str).end(); hash.digest('hex')]
    (src/index.ts:30-32) computes the SHA-256 digest of the UTF-8 bytes of
    [str] and prints it in lowercase hexadecimal.  This file computes it as
    FIPS 180-4 specifies (section 4.1.2 functions, 4.2.2 constants, 5.1.1
    padding, 5.3.3 initial value, 6.2.2 computation), on 32-bit words kept
    at their width by [Bytes.add32].  The round constants are computed
    from their definition with an integer root proved correct; the
    theorems give the digest's shape: 32 bytes, 64 lowercase hexadecimal
    characters, and 32-bit registers throughout.  The test vectors are
    checked in [Crypto.Node]. *)

From Stdlib Require Import String Ascii ZArith List Lia Bool.
From S2P Require Import Prelude Json Bytes.
Import ListNotations Bytes.
#[local] Open Scope Z_scope.
#[local] Open Scope string_scope.
#[local] Open Scope Z_scope.

Module Sha256.

(** The eight working variables [a]..[h], also used for the hash value
    [H(i)]. *)
Record regs : Type := mkRegs {
  ra : Z; rb : Z; rc : Z; rd : Z; re : Z; rf : Z; rg : Z; rh : Z
}.

(** The constants of sections 4.2.2 and 5.3.3 are the first 32 bits of
    the fractional parts of cube and square roots of primes; they are
    computed here from that definition.  [is_prime] is trial division. *)
Definition is_prime (n : Z) : bool :=
  (2 <=? n) && forallb (fun d => negb (n mod d =? 0))
                       (map Z.of_nat (seq 2 (pred (Z.to_nat (Z.sqrt n))))).

Definition first_primes (k : nat) : list Z :=
  firstn k (filter is_prime (map Z.of_nat (seq 2 400))).

(** [iroot k n] is the integer [k]-th root of [n], bit by bit from bit 63:
    the greatest [r < 2^64] with [r^k <= n]. *)
Fixpoint root_bits (k : Z) (b : nat) (n r : Z) : Z :=
  match b with
  | O => r
  | S b' =>
      let r' := r + 2 ^ Z.of_nat b' in
      root_bits k b' n (if r' ^ k <=? n then r' else r)
  end.

Definition iroot (k n : Z) : Z := root_bits k 64 n 0.

(** The first 32 bits of the fractional part of [p^(1/k)]: the integer
    part of [p^(1/k) * 2^32], that is [iroot k (p * 2^(32k))], modulo
    [2^32]. *)
Definition frac_bits32 (k p : Z) : Z := wrap32 (iroot k (p * 2 ^ (32 * k))).

(** Section 4.2.2: cube roots of the first 64 primes. *)
Definition K : list Z := map (frac_bits32 3) (first_primes 64).

(** Section 5.3.3: square roots of the first 8 primes. *)
Definition H0 : regs :=
  match map (frac_bits32 2) (first_primes 8) with
  | [a; b; c; d; e; f; g; h] => mkRegs a b c d e f g h
  | _ => mkRegs 0 0 0 0 0 0 0 0
  end.

(** Section 4.1.2. *)
Definition Ch (x y z : Z) : Z := Z.lxor (Z.land x y) (Z.land (not32 x) z).
Definition Maj (x y z : Z) : Z :=
  Z.lxor (Z.lxor (Z.land x y) (Z.land x z)) (Z.land y z).
Definition Sigma0 (x : Z) : Z := Z.lxor (Z.lxor (rotr32 x 2) (rotr32 x 13)) (rotr32 x 22).
Definition Sigma1 (x : Z) : Z := Z.lxor (Z.lxor (rotr32 x 6) (rotr32 x 11)) (rotr32 x 25).
Definition sigma0 (x : Z) : Z := Z.lxor (Z.lxor (rotr32 x 7) (rotr32 x 18)) (Z.shiftr x 3).
Definition sigma1 (x : Z) : Z := Z.lxor (Z.lxor (rotr32 x 17) (rotr32 x 19)) (Z.shiftr x 10).

(** Section 6.2.2 step 1, the message schedule: [W(t)] for [16 <= t < 64]
    is [sigma1(W(t-2)) + W(t-7) + sigma0(W(t-15)) + W(t-16)].  The words
    computed so far are kept newest first, so that [W(t-k)] is at
    position [k - 1]. *)
Fixpoint extend (n : nat) (rw : list Z) : list Z :=
  match n with
  | O => rw
  | S n' =>
      extend n' (add32 (add32 (sigma1 (nth 1 rw 0)) (nth 6 rw 0))
                       (add32 (sigma0 (nth 14 rw 0)) (nth 15 rw 0)) :: rw)
  end.

Definition schedule (block : list Z) : list Z :=
  rev (extend 48 (rev (words be_combine block))).

(** Section 6.2.2 step 3, one round [t] with constant [K(t)] and word
    [W(t)]. *)
Definition round (r : regs) (kw : Z * Z) : regs :=
  let (k, w) := kw in
  let t1 := add32 (add32 (add32 (rh r) (Sigma1 (re r)))
                         (add32 (Ch (re r) (rf r) (rg r)) k)) w in
  let t2 := add32 (Sigma0 (ra r)) (Maj (ra r) (rb r) (rc r)) in
  {| ra := add32 t1 t2; rb := ra r; rc := rb r; rd := rc r;
     re := add32 (rd r) t1; rf := re r; rg := rf r; rh := rg r |}.

(** Step 4: [H(i) = H(i-1) + (a, ..., h)], word by word. *)
Definition regs_add (h r : regs) : regs :=
  {| ra := add32 (ra h) (ra r); rb := add32 (rb h) (rb r);
     rc := add32 (rc h) (rc r); rd := add32 (rd h) (rd r);
     re := add32 (re h) (re r); rf := add32 (rf h) (rf r);
     rg := add32 (rg h) (rg r); rh := add32 (rh h) (rh r) |}.

(** One 64-byte block. *)
Definition compress (h : regs) (block : list Z) : regs :=
  regs_add h (fold_left round (combine K (schedule block)) h).

Definition regs_list (r : regs) : list Z := [ra r; rb r; rc r; rd r; re r; rf r; rg r; rh r].

(** The digest: [H(N)] as 32 bytes, each word big-endian. *)
Definition sha256 (m : list Z) : list Z :=
  flat_map (be_split 4) (regs_list (fold_left compress (chunks (pad (be_split 8) m)) H0)).

(** [hash.update(str).end(); hash.digest('hex')]. *)
Definition sha256_hex (s : string) : string := to_hex (sha256 (utf8_encode s)).

(** ** The shape of the digest *)

Definition regs_ok (r : regs) : Prop := Forall in32 (regs_list r).

Lemma regs_add_ok (h r : regs) : regs_ok (regs_add h r).
Proof. repeat constructor; apply add32_range. Qed.

Lemma round_ok (r : regs) (kw : Z * Z) : regs_ok r -> regs_ok (round r kw).
Proof.
  destruct kw as [k w]. unfold regs_ok, regs_list. rewrite !Forall_forall. cbn.
  intros H x Hx. repeat destruct Hx as [<-|Hx];
    solve [apply add32_range | apply H; tauto | contradiction].
Qed.

Lemma compress_ok (h : regs) (b : list Z) : regs_ok (compress h b).
Proof. apply regs_add_ok. Qed.

Lemma H0_ok : regs_ok H0.
Proof. unfold regs_ok, in32. repeat constructor; vm_compute; discriminate. Qed.

(** Every hash value [H(i)] of a message is eight 32-bit words. *)
Lemma fold_compress_ok (bs : list (list Z)) (h : regs) :
  regs_ok h -> regs_ok (fold_left compress bs h).
Proof.
  revert h. induction bs as [|b bs IH]; intros h Hh; simpl; [exact Hh|].
  apply IH, compress_ok.
Qed.

Lemma length_sha256 (m : list Z) : length (sha256 m) = 32%nat.
Proof. reflexivity. Qed.

Lemma sha256_bytes (m : list Z) : bytes_ok (sha256 m) = true.
Proof.
  unfold sha256, regs_list. cbn [flat_map]. rewrite !bytes_ok_app, !be_split_bytes.
  reflexivity.
Qed.

(** The schedule of a block of bytes is made of 32-bit words. *)
Lemma words_in32 (l : list Z) : bytes_ok l = true -> Forall in32 (words be_combine l).
Proof.
  intros H. remember (length l) as n eqn:En.
  revert l H En. induction n as [n IH] using (well_founded_induction lt_wf).
  intros [|b0 [|b1 [|b2 [|b3 r]]]] H En; simpl; [constructor..|].
  apply bytes_ok_cons in H as [H0 H]. apply bytes_ok_cons in H as [H1 H].
  apply bytes_ok_cons in H as [H2 H]. apply bytes_ok_cons in H as [H3 H].
  constructor.
  - unfold be_combine, in32.
    change (2 ^ 32) with (2 ^ (8 * Z.of_nat (length (rev [b0; b1; b2; b3])))).
    apply le_combine_range. rewrite bytes_ok_rev.
    repeat (apply bytes_ok_cons; split; [assumption|]). reflexivity.
  - apply (IH (length r)); [simpl in En; lia | exact H | reflexivity].
Qed.

Lemma extend_in32 (n : nat) (rw : list Z) : Forall in32 rw -> Forall in32 (extend n rw).
Proof.
  revert rw. induction n as [|n IH]; intros rw H; simpl; [exact H|].
  apply IH. constructor; [apply add32_range | exact H].
Qed.

Lemma schedule_in32 (b : list Z) : bytes_ok b = true -> Forall in32 (schedule b).
Proof.
  intros H. unfold schedule. apply Forall_rev, extend_in32, Forall_rev, words_in32, H.
Qed.

(** ** Theorems *)

(** One bit of the root: if [r] is below the root and [r + 2^b] above it,
    the loop's remaining [b] steps end on the root. *)
Lemma root_bits_spec (k : Z) (b : nat) (n r : Z) :
  1 <= k -> 0 <= r -> r ^ k <= n < (r + 2 ^ Z.of_nat b) ^ k ->
  let s := root_bits k b n r in 0 <= s /\ s ^ k <= n < (s + 1) ^ k.
Proof.
  revert r. induction b as [|b IH]; intros r Hk Hr [Hlo Hhi]; cbn [root_bits].
  - change (2 ^ Z.of_nat 0) with 1 in Hhi. lia.
  - assert (Hb : 0 < 2 ^ Z.of_nat b) by (apply Z.pow_pos_nonneg; lia).
    rewrite Nat2Z.inj_succ, Z.pow_succ_r in Hhi by lia.
    destruct (Z.leb_spec ((r + 2 ^ Z.of_nat b) ^ k) n) as [Hle|Hgt]; apply IH; try lia.
    replace (r + 2 ^ Z.of_nat b + 2 ^ Z.of_nat b) with (r + 2 * 2 ^ Z.of_nat b) by ring.
    split; assumption.
Qed.

Lemma iroot_ok (k n : Z) :
  1 <= k -> 0 <= n < 2 ^ (64 * k) ->
  0 <= iroot k n /\ iroot k n ^ k <= n < (iroot k n + 1) ^ k.
Proof.
  intros Hk Hn. unfold iroot.
  refine (root_bits_spec k 64 n 0 Hk (Z.le_refl 0) _).
  rewrite Z.pow_0_l, Z.add_0_l, <- Z.pow_mul_r by lia.
  change (Z.of_nat 64) with 64. lia.
Qed.

Lemma sha256_hex_ok (s : string) :
  String.length (sha256_hex s) = 64%nat /\ is_hex (sha256_hex s) = true.
Proof.
  unfold sha256_hex. rewrite length_to_hex, length_sha256.
  split; [reflexivity | apply is_hex_to_hex].
Qed.

(** SHA-256 of a string works on whole 64-byte blocks whose message
    schedules are 32-bit words, and every intermediate hash value is
    eight 32-bit words. *)
Lemma sha256_words_32 (s : string) :
  let bs := chunks (pad (be_split 8) (utf8_encode s)) in
  Forall (fun b => length b = 64%nat /\ Forall in32 (schedule b)) bs /\
  forall n, regs_ok (fold_left compress (firstn n bs) H0).
Proof.
  intros bs.
  assert (Hb : bytes_ok (pad (be_split 8) (utf8_encode s)) = true)
    by (apply pad_bytes; [apply be_split_bytes | apply utf8_encode_bytes]).
  split.
  - destruct (chunks_concat (pad (be_split 8) (utf8_encode s))) as [_ Hl];
      [apply pad_blocks, length_be_split|].
    pose proof (chunks_bytes _ Hb) as Hk. fold bs in Hl, Hk.
    rewrite Forall_forall in *. intros b Hin.
    split; [apply Hl, Hin | apply schedule_in32, Hk, Hin].
  - intros n. apply fold_compress_ok, H0_ok.
Qed.

(** ** Witnesses *)

End Sha256.
