(* ===== verification/Md5.v ===== *)
(** * MD5 (RFC 1321), the digest of the mining attempts

    [crypto.createHash('MD5').update(s).end(); hash.digest('hex')]
    (src/index.ts:61-63) computes the MD5 digest of the UTF-8 bytes of [s].
    This file computes it as RFC 1321 specifies (section 3.1-3.2 padding,
    3.3 initial buffer, 3.4 the four rounds, 3.5 output), little-endian
    throughout, on 32-bit words kept at their width by [Bytes.add32]. *)

From Stdlib Require Import String Ascii ZArith List Lia Bool.
From S2P Require Import Prelude Json Bytes.
Import ListNotations Bytes.
#[local] Open Scope string_scope.
#[local] Open Scope Z_scope.

Module Md5.

(** The buffer [A, B, C, D]. *)
Record regs : Type := mkRegs { ma : Z; mb : Z; mc : Z; md : Z }.

(** Section 3.3, the initial buffer (words 01234567, 89abcdef, fedcba98,
    76543210 written low-order byte first). *)
Definition IV : regs := mkRegs 0x67452301 0xefcdab89 0x98badcfe 0x10325476.

(** Section 3.4: [T(i)], the integer part of [2^32 * abs(sin(i))]. *)
Definition T : list Z := [
   0xd76aa478; 0xe8c7b756; 0x242070db; 0xc1bdceee;
   0xf57c0faf; 0x4787c62a; 0xa8304613; 0xfd469501;
   0x698098d8; 0x8b44f7af; 0xffff5bb1; 0x895cd7be;
   0x6b901122; 0xfd987193; 0xa679438e; 0x49b40821;
   0xf61e2562; 0xc040b340; 0x265e5a51; 0xe9b6c7aa;
   0xd62f105d; 0x02441453; 0xd8a1e681; 0xe7d3fbc8;
   0x21e1cde6; 0xc33707d6; 0xf4d50d87; 0x455a14ed;
   0xa9e3e905; 0xfcefa3f8; 0x676f02d9; 0x8d2a4c8a;
   0xfffa3942; 0x8771f681; 0x6d9d6122; 0xfde5380c;
   0xa4beea44; 0x4bdecfa9; 0xf6bb4b60; 0xbebfbc70;
   0x289b7ec6; 0xeaa127fa; 0xd4ef3085; 0x04881d05;
   0xd9d4d039; 0xe6db99e5; 0x1fa27cf8; 0xc4ac5665;
   0xf4292244; 0x432aff97; 0xab9423a7; 0xfc93a039;
   0x655b59c3; 0x8f0ccc92; 0xffeff47d; 0x85845dd1;
   0x6fa87e4f; 0xfe2ce6e0; 0xa3014314; 0x4e0811a1;
   0xf7537e82; 0xbd3af235; 0x2ad7d2bb; 0xeb86d391].

(** The left-rotation amounts of the 64 steps. *)
Definition shifts : list Z :=
  [7; 12; 17; 22; 7; 12; 17; 22; 7; 12; 17; 22; 7; 12; 17; 22;
   5; 9; 14; 20; 5; 9; 14; 20; 5; 9; 14; 20; 5; 9; 14; 20;
   4; 11; 16; 23; 4; 11; 16; 23; 4; 11; 16; 23; 4; 11; 16; 23;
   6; 10; 15; 21; 6; 10; 15; 21; 6; 10; 15; 21; 6; 10; 15; 21].

(** The auxiliary functions of section 3.4. *)
Definition F (x y z : Z) : Z := Z.lor (Z.land x y) (Z.land (not32 x) z).
Definition G (x y z : Z) : Z := Z.lor (Z.land x z) (Z.land y (not32 z)).
Definition H (x y z : Z) : Z := Z.lxor (Z.lxor x y) z.
Definition I (x y z : Z) : Z := Z.lxor y (Z.lor x (not32 z)).

(** Step [i] of the four rounds: the function of its round and the index
    of the message word it reads. *)
Definition round_fun (i : nat) (b c d : Z) : Z * nat :=
  match (i / 16)%nat with
  | O => (F b c d, i)
  | 1%nat => (G b c d, (5 * i + 1) mod 16)%nat
  | 2%nat => (H b c d, (3 * i + 5) mod 16)%nat
  | _ => (I b c d, (7 * i) mod 16)%nat
  end.

(** [a = b + ((a + fun(b,c,d) + X[g] + T[i]) <<< s)], the buffer then
    turned by one position. *)
Definition step (X : list Z) (r : regs) (i : nat) : regs :=
  let (f, g) := round_fun i (mb r) (mc r) (md r) in
  let x := add32 (add32 (ma r) f) (add32 (nth i T 0) (nth g X 0)) in
  {| ma := md r; mb := add32 (mb r) (rotl32 x (nth i shifts 0));
     mc := mb r; md := mc r |}.

Definition regs_add (h r : regs) : regs :=
  {| ma := add32 (ma h) (ma r); mb := add32 (mb h) (mb r);
     mc := add32 (mc h) (mc r); md := add32 (md h) (md r) |}.

(** One 64-byte block, read as sixteen little-endian words. *)
Definition compress (h : regs) (block : list Z) : regs :=
  regs_add h (fold_left (step (words le_combine block)) (seq 0 64) h).

Definition regs_list (r : regs) : list Z := [ma r; mb r; mc r; md r].

(** Section 3.5: [A, B, C, D] as 16 bytes, low-order byte first. *)
Definition md5 (m : list Z) : list Z :=
  flat_map (le_split 4) (regs_list (fold_left compress (chunks (pad (le_split 8) m)) IV)).

(** [hash.update(s).end(); hash.digest('hex')]. *)
Definition md5_hex (s : string) : string := to_hex (md5 (utf8_encode s)).

(** ** Theorems *)

Definition regs_ok (r : regs) : Prop := Forall in32 (regs_list r).

Lemma step_ok (X : list Z) (r : regs) (i : nat) : regs_ok r -> regs_ok (step X r i).
Proof.
  unfold step. destruct (round_fun i (mb r) (mc r) (md r)) as [f g].
  unfold regs_ok, regs_list. rewrite !Forall_forall. cbn.
  intros Hr x Hx. repeat destruct Hx as [<-|Hx];
    solve [apply add32_range | apply Hr; tauto | contradiction].
Qed.

(** Every buffer the four rounds go through is four 32-bit words, so the
    rotations act on 32-bit words. *)
Lemma rounds_ok (X : list Z) (r : regs) (l : list nat) :
  regs_ok r -> regs_ok (fold_left (step X) l r).
Proof.
  revert r. induction l as [|i l IH]; intros r Hr; simpl; [exact Hr|].
  apply IH, step_ok, Hr.
Qed.

Lemma length_md5 (m : list Z) : length (md5 m) = 16%nat.
Proof. reflexivity. Qed.

Lemma md5_bytes (m : list Z) : bytes_ok (md5 m) = true.
Proof.
  unfold md5, regs_list. cbn [flat_map]. rewrite !bytes_ok_app, !le_split_bytes.
  reflexivity.
Qed.

Lemma md5_hex_ok (s : string) :
  String.length (md5_hex s) = 32%nat /\ is_hex (md5_hex s) = true.
Proof.
  unfold md5_hex. rewrite length_to_hex, length_md5.
  split; [reflexivity | apply is_hex_to_hex].
Qed.

End Md5.
