(* ===== verification/Crypto.v ===== *)
(** * The [crypto] module as the program uses it

    [src/index.ts] imports Node's [crypto] module and uses five of its
    operations: [createHash('SHA256')] (block hash, line 30),
    [createHash('MD5')] (mining, line 61), [createVerify('SHA256')]
    (lines 76-78), [createSign('SHA256')] (lines 107-109) and
    [generateKeyPairSync('rsa', ...)] (lines 94-98).  They are a library
    the sources only call, so this file states them as interfaces
    (type classes) with the laws the program's correctness depends on; the
    components are proved against the interfaces.  [Ideal] gives a symbolic
    instance that satisfies every law, used by the witnesses. *)

From Stdlib Require Import String Ascii ZArith List Bool Lia.
From S2P Require Import Prelude Json Bytes Sha256 Md5.
Import ListNotations.
#[local] Open Scope string_scope.

Module Crypto.

(** [hash.update(s).end(); hash.digest('hex')] for the two hash functions:
    a function from the hashed string to its hexadecimal digest. *)
Class Digests : Type := {
  sha256_hex : string -> string;
  md5_hex : string -> string
}.

(** What the program relies on from the digests: [Block.hash] is 64 and a
    mining attempt 32 lowercase hexadecimal characters. *)
Class DigestLaws `{Digests} : Prop := {
  sha256_shape : forall s,
    String.length (sha256_hex s) = 64%nat /\ Bytes.is_hex (sha256_hex s) = true;
  md5_shape : forall s,
    String.length (md5_hex s) = 32%nat /\ Bytes.is_hex (md5_hex s) = true
}.

(** Node's digests, computed as the standards define them ([Sha256],
    [Md5]). *)
Module Node.

#[export] Instance node_digests : Digests := {|
  sha256_hex := Sha256.sha256_hex;
  md5_hex := Md5.md5_hex
|}.

#[export] Instance node_digest_laws : DigestLaws.
Proof. split; [apply Sha256.sha256_hex_ok | apply Md5.md5_hex_ok]. Qed.

(** Node's digests, as modelled, give the test vectors of the
    standards: for SHA-256 the FIPS 180-2 examples (one and two blocks),
    the empty string and a character UTF-8 encodes on two bytes; for MD5
    the test suite of RFC 1321 (appendix A.5) and the attempt ["5329"],
    the first decimal numeral whose MD5 starts with ["0000"]. *)
Example node_test_vectors :
  (sha256_hex "abc" = "ba7816bf8f01cfea414140de5dae2223b00361a396177a9cb410ff61f20015ad" /\
     sha256_hex "" = "e3b0c44298fc1c149afbf4c8996fb92427ae41e4649b934ca495991b7852b855" /\
     sha256_hex "abcdbcdecdefdefgefghfghighijhijkijkljklmklmnlmnomnopnopq" =
       "248d6a61d20638b8e5c026930c3e6039a33ce45964ff2167f6ecedd419db06c1" /\
     sha256_hex (String (ascii_of_nat 233) "") =
       "4a99557e4033c3539de2eb65472017cad5f9557f7a0625a09f1c3f6e2ba69c4c") /\
  (md5_hex "" = "d41d8cd98f00b204e9800998ecf8427e" /\
     md5_hex "a" = "0cc175b9c0f1b6a831c399e269772661" /\
     md5_hex "abc" = "900150983cd24fb0d6963f7d28e17f72" /\
     md5_hex "message digest" = "f96b697d7cb7938d525a2f31aaf161d0" /\
     md5_hex "abcdefghijklmnopqrstuvwxyz" = "c3fcd3d76192e4007dfb496cca67e13b" /\
     md5_hex "ABCDEFGHIJKLMNOPQRSTUVWXYZabcdefghijklmnopqrstuvwxyz0123456789" =
       "d174ab98d277d9f5a5611c2c9f419d9f" /\
     md5_hex "12345678901234567890123456789012345678901234567890123456789012345678901234567890" =
       "57edf4a22be3c955ac49da2e2107b67a" /\
     md5_hex "5329" = "00003e3b9e5336685200ae85d21b4f5e").
Proof. vm_compute. repeat split. Qed.

End Node.

(** A [Buffer] returned by [sign.sign], as the string of its bytes. *)
Definition signature : Type := string.

(** The RSA operations.  [generateKeyPair n] is the key pair
    [(publicKey, privateKey)] returned by the [n]-th call of
    [generateKeyPairSync] (both PEM strings).  [sign msg privateKey] and
    [verify msg publicKey sig] are the [createSign('SHA256')] and
    [createVerify('SHA256')] pipelines after [update(msg)]; both throw on
    key material they cannot decode, which the [completion] records. *)
Class Signer : Type := {
  generateKeyPair : nat -> string * string;
  sign : string -> string -> completion signature;
  verify : string -> string -> signature -> completion bool
}.

Section Laws.
Context {Sg : Signer}.

Definition publicKey_of (n : nat) : string := fst (generateKeyPair n).
Definition privateKey_of (n : nat) : string := snd (generateKeyPair n).

(** What the program needs from RSA-SHA256: a generated private key signs
    every message, and the signature verifies under the matching public
    key ([sign_ok]); a signature made with the [j]-th private key verifies
    under the [i]-th public key only for [i = j] and the signed message
    ([sign_binding], the idealised unforgeability of the scheme). *)
Class SignerLaws : Prop := {
  sign_ok : forall n msg, exists sig,
      sign msg (privateKey_of n) = Normal sig /\
      verify msg (publicKey_of n) sig = Normal true;
  sign_binding : forall i j msg msg' sig,
      sign msg (privateKey_of j) = Normal sig ->
      verify msg' (publicKey_of i) sig = Normal true ->
      i = j /\ msg' = msg
}.

End Laws.

(** ** A symbolic instance

    Keys are ["PUB<n>"] and ["PRIV<n>"]; the signature of [m] by
    ["PRIV<n>"] is ["SIG"], the public key, ["|"] and [m]; [verify]
    recomputes it.  Strings that are not keys of this shape are rejected
    with an exception, as Node rejects malformed PEM. *)
Module Ideal.

Definition digits (n : nat) : string := Json.number_to_string (Z.of_nat n).

Definition pub (n : nat) : string := "PUB" ++ digits n.
Definition priv (n : nat) : string := "PRIV" ++ digits n.

Definition decoder_error : js_error :=
  CryptoError "error:1E08010C:DECODER routines::unsupported".

Definition ideal_sign (msg sk : string) : completion signature :=
  match sk with
  | String "P" (String "R" (String "I" (String "V" d))) =>
      Normal ("SIG" ++ "PUB" ++ d ++ "|" ++ msg)
  | _ => Throw decoder_error
  end.

Definition ideal_verify (msg pk : string) (sig : signature) : completion bool :=
  match pk with
  | String "P" (String "U" (String "B" _)) =>
      Normal (String.eqb sig ("SIG" ++ pk ++ "|" ++ msg))
  | _ => Throw decoder_error
  end.

#[export] Instance ideal_signer : Signer := {|
  generateKeyPair n := (pub n, priv n);
  sign := ideal_sign;
  verify := ideal_verify
|}.

(** No ["|"] occurs in a decimal numeral. *)
Fixpoint no_bar (s : string) : bool :=
  match s with
  | "" => true
  | String c s' => negb (Ascii.eqb c "|") && no_bar s'
  end.

Lemma all_num_no_bar (s : string) : Json.all_num s = true -> no_bar s = true.
Proof.
  induction s as [|c s IH]; simpl; [reflexivity|].
  intros H. apply andb_prop in H as [Hc Hs]. rewrite (IH Hs), andb_true_r.
  destruct (Ascii.eqb_spec c "|"); [subst; discriminate | reflexivity].
Qed.

Lemma split_bar (a b m m' : string) :
  no_bar a = true -> no_bar b = true ->
  a ++ "|" ++ m = b ++ "|" ++ m' -> a = b /\ m = m'.
Proof.
  revert b. induction a as [|c a IH]; intros [|c' b] Ha Hb H; simpl in *.
  - injection H as H. auto.
  - injection H as <- _. simpl in Hb. discriminate.
  - injection H as -> _. simpl in Ha. discriminate.
  - apply andb_prop in Ha as [_ Ha]. apply andb_prop in Hb as [_ Hb].
    injection H as -> H. destruct (IH b Ha Hb H) as [-> ->]. auto.
Qed.

Lemma digits_inj (i j : nat) : digits i = digits j -> i = j.
Proof.
  unfold digits. intros H.
  assert (Json.JNum (Z.of_nat i) = Json.JNum (Z.of_nat j)) as E
    by (apply Json.stringify_inj; exact H).
  injection E as E. lia.
Qed.

#[export] Instance ideal_signer_laws : SignerLaws.
Proof.
  split.
  - intros n msg. eexists. split; [reflexivity|].
    simpl. unfold ideal_verify, publicKey_of, pub. simpl.
    rewrite String.eqb_refl. reflexivity.
  - intros i j msg msg' sig Hs Hv. simpl in Hs, Hv.
    unfold privateKey_of, publicKey_of, ideal_sign, ideal_verify in *. simpl in *.
    injection Hs as <-. injection Hv as Hv. apply String.eqb_eq in Hv.
    apply split_bar in Hv as [Hd Hm];
      [| apply all_num_no_bar, Json.all_num_number ..].
    split; [apply digits_inj; symmetry; exact Hd | symmetry; exact Hm].
Qed.

(** Stand-in digests for the witnesses: the identity for SHA-256 (it has
    no collisions) and, for MD5, a function whose output starts with
    ["0000"] exactly when its input ends with the digit 7. *)
Fixpoint ends_with_7 (s : string) : bool :=
  match s with
  | "" => false
  | String c "" => Ascii.eqb c "7"
  | String _ s' => ends_with_7 s'
  end.

#[export] Instance toy_digests : Digests := {|
  sha256_hex s := s;
  md5_hex s := if ends_with_7 s then "0000" ++ s else "ffff" ++ s
|}.

(** Two more stand-ins with the same SHA-256: an MD5 whose digests all
    start with ["0000"] (every attempt solves the puzzle) and one whose
    digests never do (the mining loop never returns). *)
Definition eager_digests : Digests := {|
  sha256_hex s := s;
  md5_hex s := "0000" ++ s
|}.

Definition flat_digests : Digests := {|
  sha256_hex s := s;
  md5_hex s := "ffff" ++ s
|}.

End Ideal.

End Crypto.
