(* ===== verification/Transaction.v ===== *)
(** * [class Transaction] (src/index.ts:4-15)

    A transaction is the record of its three constructor parameter
    properties, and [toString] is [JSON.stringify(this)].  The file proves
    that [toString] is a canonical encoding: it can be read back, so two
    transactions with the same encoding are equal, and so a signature over
    one encoding authorises exactly one transaction. *)

From Stdlib Require Import String ZArith Bool.
From S2P Require Import Prelude Json.
#[local] Open Scope string_scope.

Module Transaction.

(** [constructor(public amount: number, public payer: string,
    public payee: string)].  [amount] is a JavaScript number; the model
    keeps integral amounts (the program sends 100, 50, 23 and 5).  No
    validation is performed, as in the source: negative amounts and
    arbitrary key strings are transactions too. *)
Record Transaction : Type := mkTransaction {
  amount : Z;
  payer : string;
  payee : string
}.

(** The object [JSON.stringify] sees: the parameter properties in the
    order the constructor assigns them. *)
Definition to_json (t : Transaction) : Json.jvalue :=
  Json.JObj (Json.JField "amount" (Json.JNum (amount t))
            (Json.JField "payer" (Json.JStr (payer t))
            (Json.JField "payee" (Json.JStr (payee t)) Json.JNil))).

(** [toString() { return JSON.stringify(this); }] *)
Definition toString (t : Transaction) : string := Json.stringify (to_json t).

(** Reading a transaction back from its JSON value. *)
Definition of_json (v : Json.jvalue) : option Transaction :=
  match v with
  | Json.JObj (Json.JField "amount" (Json.JNum a)
              (Json.JField "payer" (Json.JStr p)
              (Json.JField "payee" (Json.JStr q) Json.JNil))) =>
      Some (mkTransaction a p q)
  | _ => None
  end.

Definition parse (s : string) : option Transaction :=
  match Json.decode s with
  | Some v => of_json v
  | None => None
  end.

Definition Transaction_eq_dec (t1 t2 : Transaction) : {t1 = t2} + {t1 <> t2}.
Proof. decide equality; (apply string_dec || apply Z.eq_dec). Defined.

Definition eqb (t1 t2 : Transaction) : bool :=
  Z.eqb (amount t1) (amount t2) && String.eqb (payer t1) (payer t2) &&
  String.eqb (payee t1) (payee t2).

Lemma eqb_eq (t1 t2 : Transaction) : eqb t1 t2 = true <-> t1 = t2.
Proof.
  destruct t1 as [a p q], t2 as [a' p' q']. unfold eqb; simpl.
  rewrite !andb_true_iff, Z.eqb_eq, !String.eqb_eq.
  split; [intros ((-> & ->) & ->); reflexivity | intros H; injection H; auto].
Qed.

Lemma toString_roundtrip (t : Transaction) : parse (toString t) = Some t.
Proof. unfold parse, toString. rewrite Json.decode_stringify. destruct t; reflexivity. Qed.

(** C6: [toString] is a canonical encoding: [parse] reads every transaction
    back from it. *)
Theorem parse_toString (t : Transaction) : parse (toString t) = Some t.
Proof. apply toString_roundtrip. Qed.

Lemma toString_inj (t1 t2 : Transaction) : toString t1 = toString t2 -> t1 = t2.
Proof.
  intros H. apply (f_equal parse) in H. rewrite !toString_roundtrip in H.
  congruence.
Qed.

End Transaction.
