(* ===== verification/Block.v ===== *)
(** * [class Block] (src/index.ts:18-34)

    A block holds the hash of its predecessor, one transaction, its
    creation time and a random nonce; its [hash] is the SHA-256 digest of
    [JSON.stringify(this)].  The nonce [Math.round(Math.random() *
    999999999)] is computed in binary64 arithmetic from the draw, and lies
    in [[0, 999999999]] for every draw.  The file proves that the serialised form
    determines the block, so that, for a collision-free digest, a block's
    hash commits to every one of its fields (used by [Chain] for tamper
    evidence). *)

From Stdlib Require Import String ZArith Lia Bool.
From S2P Require Import Prelude Json Crypto Transaction.
Import Transaction Crypto.
#[local] Open Scope string_scope.
#[local] Open Scope bool_scope.

Module Block.

(** The fields in the order the compiled constructor creates them under
    TypeScript's default emit (no [useDefineForClassFields]): the
    parameter properties [prevHash], [transaction] and [ts] first, then
    the property initialiser [nonce].  With class fields defined by
    [useDefineForClassFields] (the default from target ES2022) [nonce]
    would come first; the repository does not fix the option. *)
Record Block : Type := mkBlock {
  prevHash : string;
  transaction : Transaction;
  ts : Z;
  nonce : Z
}.

(** [Math.round(Math.random() * 999999999)] lies in this range. *)
Definition nonce_max : Z := 999999999.
Definition nonce_in_range (n : Z) : bool := (0 <=? n)%Z && (n <=? nonce_max)%Z.

(** ** [Math.round(Math.random() * 999999999)]

    The draw of line 19 in binary64 arithmetic.  A finite non-negative
    double is [mant * 2^expo]; [Math.random()] returns one in [[0, 1)],
    which [is_random_double] states (a 53-bit significand, an exponent no
    smaller than the subnormal one, a value below 1). *)
Record double : Type := mkDouble { mant : Z; expo : Z }.

Definition is_random_double (x : double) : bool :=
  (0 <=? mant x)%Z && (mant x <? 2 ^ 53)%Z && (-1074 <=? expo x)%Z &&
  (((expo x <? 0)%Z && (mant x <? 2 ^ (- expo x))%Z) || (mant x =? 0)%Z).

(** [p / 2^s] rounded to the nearest integer, ties to even ([s > 0]). *)
Definition round_shift (p s : Z) : Z :=
  let r := Z.shiftr p s in
  let rem := Z.land p (Z.ones s) in
  let half := (2 ^ (s - 1))%Z in
  if (half <? rem)%Z || ((rem =? half)%Z && Z.odd r) then (r + 1)%Z else r.

(** [x * n] for an integer [0 <= n < 2^53]: the exact product rounded to
    the nearest double (ties to even), whose quantum is
    [2^max(e + log2 p - 52, -1074)]. *)
Definition fmul_int (n : Z) (x : double) : double :=
  let p := (mant x * n)%Z in
  if (p =? 0)%Z then mkDouble 0 0
  else
    let qe := Z.max (expo x + Z.log2 p - 52) (-1074) in
    if (qe <=? expo x)%Z then mkDouble p (expo x)
    else mkDouble (round_shift p (qe - expo x)) qe.

(** [Math.round(y)] for [y >= 0]: the closest integer, the greater one on
    a tie, that is [floor(y + 1/2)]. *)
Definition math_round (y : double) : Z :=
  if (0 <=? expo y)%Z then (mant y * 2 ^ expo y)%Z
  else ((mant y + 2 ^ (- expo y - 1)) / 2 ^ (- expo y))%Z.

(** Line 19: the property initialiser of [nonce]. *)
Definition random_nonce (x : double) : Z := math_round (fmul_int nonce_max x).

(** A value [Math.random()] may return: a double in [[0, 1)] (ECMA-262
    asks no more of it).  The draws of a run are values of this type. *)
Record Random : Type := mkRandom {
  draw : double;
  draw_ok : is_random_double draw = true
}.

(** The nonce a block constructed with the draw [r] gets. *)
Definition drawn_nonce (r : Random) : Z := random_nonce (draw r).
Arguments drawn_nonce : simpl never.

(** [new Block(prevHash, transaction, ts = Date.now())].  The constructor
    reads the clock (when [ts] is omitted, as everywhere in the program)
    and calls [Math.random()] for the property initialiser of line 19; the
    model receives both draws, [now] and [rnd], from the caller, which
    quantifies over them. *)
Definition new_Block (prevHash : string) (transaction : Transaction)
    (now : Z) (rnd : Random) : Block :=
  {| prevHash := prevHash; transaction := transaction; ts := now;
     nonce := drawn_nonce rnd |}.

Definition to_json (b : Block) : Json.jvalue :=
  Json.JObj (Json.JField "prevHash" (Json.JStr (prevHash b))
            (Json.JField "transaction" (Transaction.to_json (transaction b))
            (Json.JField "ts" (Json.JNum (ts b))
            (Json.JField "nonce" (Json.JNum (nonce b)) Json.JNil)))).

(** [get hash()]: SHA-256 of [JSON.stringify(this)], as hexadecimal.  The
    getter is on the prototype, so it is not itself serialised. *)
Definition hash `{Digests} (b : Block) : string :=
  sha256_hex (Json.stringify (to_json b)).

(** ** The range of the drawn nonce *)

Lemma round_shift_le (p s M : Z) :
  (0 < s -> 0 <= p < M * 2 ^ s -> 0 <= round_shift p s <= M)%Z.
Proof.
  intros Hs Hp. unfold round_shift. rewrite Z.shiftr_div_pow2 by lia.
  assert (0 <= p / 2 ^ s < M)%Z.
  { split; [apply Z.div_pos; lia | apply Z.div_lt_upper_bound; lia]. }
  destruct (_ || _); lia.
Qed.

(** The rounded product [x * n] is a non-negative multiple of a power
    [2^e <= 1], at most [n]. *)
Lemma fmul_int_le (n : Z) (x : double) :
  (0 < n < 2 ^ 30)%Z -> is_random_double x = true ->
  let y := fmul_int n x in
  (expo y <= 0 /\ 0 <= mant y <= n * 2 ^ (- expo y))%Z.
Proof.
  intros Hn Hx. unfold is_random_double in Hx.
  rewrite !andb_true_iff, orb_true_iff, andb_true_iff, !Z.leb_le, !Z.ltb_lt, Z.eqb_eq in Hx.
  destruct Hx as [[[Hm0 Hm53] He] Hlt]. destruct x as [m e]; simpl in *. unfold fmul_int; simpl.
  destruct (Z.eqb_spec (m * n) 0) as [Hp|Hp]; [simpl; lia|].
  destruct Hlt as [[Hneg Hm]|Hm]; [|subst m; lia].
  assert (HP : (m * n < n * 2 ^ (- e))%Z) by nia.
  assert (HL : (Z.log2 (m * n) < 30 + - e)%Z).
  { apply Z.log2_lt_pow2; [lia|]. rewrite Z.pow_add_r by lia. nia. }
  destruct (Z.leb_spec (Z.max (e + Z.log2 (m * n) - 52) (-1074)) e) as [Hq|Hq]; simpl.
  - lia.
  - set (qe := Z.max (e + Z.log2 (m * n) - 52) (-1074)) in *.
    assert (Hqe : (qe = e + Z.log2 (m * n) - 52)%Z) by lia.
    split; [lia|]. apply round_shift_le; [lia|]. split; [lia|].
    rewrite <- Z.mul_assoc, <- Z.pow_add_r by lia.
    replace (- qe + (qe - e))%Z with (- e)%Z by lia. exact HP.
Qed.

Lemma math_round_le (n : Z) (y : double) :
  (0 <= n -> expo y <= 0 -> 0 <= mant y <= n * 2 ^ (- expo y) ->
   0 <= math_round y <= n)%Z.
Proof.
  intros Hn He Hm. unfold math_round. destruct (Z.leb_spec 0 (expo y)).
  - replace (expo y) with 0%Z in * by lia. simpl in *. lia.
  - set (F := (- expo y)%Z) in *.
    assert (HF : (2 ^ F = 2 * 2 ^ (F - 1))%Z)
      by (rewrite <- Z.pow_succ_r by lia; f_equal; lia).
    assert (0 < 2 ^ (F - 1))%Z by (apply Z.pow_pos_nonneg; lia).
    split; [apply Z.div_pos; lia|].
    apply Z.lt_succ_r, Z.div_lt_upper_bound; nia.
Qed.

Lemma random_nonce_bound (x : double) :
  is_random_double x = true -> nonce_in_range (random_nonce x) = true.
Proof.
  intros Hx. destruct (fmul_int_le nonce_max x) as [He Hm]; [unfold nonce_max; lia | exact Hx |].
  pose proof (math_round_le nonce_max _ ltac:(unfold nonce_max; lia) He Hm) as H.
  unfold nonce_in_range, random_nonce. apply andb_true_iff. split; apply Z.leb_le; lia.
Qed.

(** C26: For every double [Math.random()] can return, the nonce of line 19
    lies in [[0, 999999999]]: rounding the product to a double and then to
    an integer never leaves the range. *)
Theorem random_nonce_range (x : double) :
  is_random_double x = true -> nonce_in_range (random_nonce x) = true.
Proof. apply random_nonce_bound. Qed.

(** The model of line 19 gives the values of JavaScript on sample
    draws: the largest double below 1 gives 999999999, the smallest
    subnormal 0, 0.5 gives 500000000 (a tie, rounded up), 0.1 gives
    100000000 and 1/3 gives 333333333. *)
Example random_nonce_samples :
  random_nonce (mkDouble (2 ^ 53 - 1) (-53)) = 999999999%Z /\
  random_nonce (mkDouble 1 (-1074)) = 0%Z /\
  random_nonce (mkDouble (2 ^ 52) (-53)) = 500000000%Z /\
  random_nonce (mkDouble 7205759403792794 (-56)) = 100000000%Z /\
  random_nonce (mkDouble 6004799503160661 (-54)) = 333333333%Z /\
  random_nonce (mkDouble 4840982077732228 (-55)) = 134364244%Z.
Proof. vm_compute. repeat split. Qed.

(** Every block the constructor builds has its nonce in range. *)
Lemma new_Block_nonce (p : string) (tx : Transaction) (now : Z) (r : Random) :
  nonce_in_range (nonce (new_Block p tx now r)) = true.
Proof. apply random_nonce_bound, draw_ok. Qed.

Definition of_json (v : Json.jvalue) : option Block :=
  match v with
  | Json.JObj (Json.JField "prevHash" (Json.JStr p)
              (Json.JField "transaction" tv
              (Json.JField "ts" (Json.JNum t)
              (Json.JField "nonce" (Json.JNum n) Json.JNil)))) =>
      match Transaction.of_json tv with
      | Some tx => Some (mkBlock p tx t n)
      | None => None
      end
  | _ => None
  end.

Lemma of_to_json (b : Block) : of_json (to_json b) = Some b.
Proof.
  destruct b as [p [a x y] t n]. reflexivity.
Qed.

Definition parse (s : string) : option Block :=
  match Json.decode s with
  | Some v => of_json v
  | None => None
  end.

Lemma stringify_block_roundtrip (b : Block) : parse (Json.stringify (to_json b)) = Some b.
Proof. unfold parse. rewrite Json.decode_stringify. apply of_to_json. Qed.

(** C15: The string a block's hash is computed from can be read back into the
    block: [JSON.stringify(this)] loses none of its fields. *)
Theorem parse_stringify_block (b : Block) : parse (Json.stringify (to_json b)) = Some b.
Proof. apply stringify_block_roundtrip. Qed.

(** The serialised block determines the block. *)
Lemma stringify_block_inj (b1 b2 : Block) :
  Json.stringify (to_json b1) = Json.stringify (to_json b2) -> b1 = b2.
Proof.
  intros H. apply (f_equal parse) in H. rewrite !stringify_block_roundtrip in H.
  congruence.
Qed.

Section Hashing.
Context `{D : Digests}.

(** With a digest that has no collisions on serialised blocks, equal hashes
    mean equal blocks. *)
Lemma hash_inj (sha_inj : forall s1 s2, sha256_hex s1 = sha256_hex s2 -> s1 = s2)
    (b1 b2 : Block) :
  hash b1 = hash b2 -> b1 = b2.
Proof. unfold hash. intros H. apply stringify_block_inj, sha_inj, H. Qed.

End Hashing.

(** ** Witnesses *)

(** Draws of [Math.random()] whose nonces are 3, 13, 23 and 5320, used by
    the witnesses of the development. *)
Definition r3 : Random := mkRandom (mkDouble 7253554924941330 (-81)) eq_refl.
Definition r13 : Random := mkRandom (mkDouble 7858017835353107 (-79)) eq_refl.
Definition r23 : Random := mkRandom (mkDouble 6951323469735441 (-78)) eq_refl.
Definition r5320 : Random := mkRandom (mkDouble 6280747428497376 (-70)) eq_refl.

Example random_nonce_range_witness :
  is_random_double (mkDouble (2 ^ 53 - 1) (-53)) = true /\
  nonce_in_range (random_nonce (mkDouble (2 ^ 53 - 1) (-53))) = true.
Proof. split; [vm_compute; reflexivity | apply random_nonce_range; vm_compute; reflexivity]. Defined.

End Block.
