(* ===== verification/Mining.v ===== *)
(** * The proof-of-work search [Chain.mine] (src/index.ts:56-72)

    [mine(nonce)] counts [solution] up from 1 and returns the first value
    for which the MD5 digest of [(nonce + solution).toString()] starts
    with ["0000"].  The loop has no bound, so the model runs it with fuel:
    [Diverge] means the fuel ran out.  The theorems say that a returned
    value is the least solution, that the loop returns as soon as some
    solution exists (with fuel equal to that least solution), that it
    never returns when none exists, and that with Node's MD5 the string
    test on the digest means two leading zero bytes. *)

From Stdlib Require Import String ZArith Lia.
From S2P Require Import Prelude Json Bytes Md5 Crypto Block.
Import Crypto.
#[local] Open Scope Z_scope.

Module Mining.

Section Mine.
Context `{D : Digests}.

(** [hash.update((nonce + solution).toString()).end();
    const attempt = hash.digest('hex');] -- [nonce + solution] is a numeric
    addition, then [Number::toString]. *)
Definition attempt (nonce solution : Z) : string :=
  md5_hex (Json.number_to_string (nonce + solution)).

(** [attempt.substr(0,4) === '0000'] *)
Definition solved (nonce solution : Z) : bool :=
  String.eqb (substring 0 4 (attempt nonce solution)) "0000".

(** [while(true) { ...; if (solved) return solution; solution += 1; }] *)
Fixpoint mine_loop (fuel : nat) (nonce solution : Z) : completion Z :=
  match fuel with
  | O => Diverge
  | S f =>
      if solved nonce solution then Normal solution
      else mine_loop f nonce (solution + 1)
  end.

(** [mine(nonce) { let solution = 1; ... }] *)
Definition mine (fuel : nat) (nonce : Z) : completion Z := mine_loop fuel nonce 1.

(** The value [mine] should return: the least positive solution. *)
Definition least_solution (nonce s : Z) : Prop :=
  1 <= s /\ solved nonce s = true /\
  forall k, 1 <= k < s -> solved nonce k = false.

(** ** Loop lemmas *)

Lemma mine_loop_normal (fuel : nat) (nonce start s : Z) :
  mine_loop fuel nonce start = Normal s ->
  start <= s < start + Z.of_nat fuel /\ solved nonce s = true /\
  forall k, start <= k < s -> solved nonce k = false.
Proof.
  revert start. induction fuel as [|f IH]; intros start H; simpl in H;
    [discriminate|].
  destruct (solved nonce start) eqn:Hs.
  - injection H as <-. repeat split; try lia; auto.
  - destruct (IH (start + 1) H) as (Hr & Hsol & Hmin). repeat split; try lia; auto.
    intros k Hk. destruct (Z.eq_dec k start) as [->|Hne]; [exact Hs|].
    apply Hmin. lia.
Qed.

Lemma mine_loop_reaches (fuel : nat) (nonce start s : Z) :
  start <= s -> solved nonce s = true ->
  (forall k, start <= k < s -> solved nonce k = false) ->
  (Z.to_nat (s - start) < fuel)%nat ->
  mine_loop fuel nonce start = Normal s.
Proof.
  revert start. induction fuel as [|f IH]; intros start Hle Hs Hmin Hf; [lia|].
  simpl. destruct (Z.eq_dec start s) as [->|Hne]; [now rewrite Hs|].
  rewrite (Hmin start) by lia.
  apply IH; [lia | exact Hs | intros k Hk; apply Hmin; lia | lia].
Qed.

Lemma mine_loop_diverge (fuel : nat) (nonce start : Z) :
  (forall k, start <= k -> solved nonce k = false) ->
  mine_loop fuel nonce start = Diverge.
Proof.
  revert start. induction fuel as [|f IH]; intros start H; simpl; [reflexivity|].
  rewrite H by lia. apply IH. intros k Hk. apply H. lia.
Qed.

(** The loop either returns a number or runs out of fuel; it never throws. *)
Lemma mine_loop_cases (fuel : nat) (nonce start : Z) :
  mine_loop fuel nonce start = Diverge \/ exists s, mine_loop fuel nonce start = Normal s.
Proof.
  revert start. induction fuel as [|f IH]; intros start; simpl; [auto|].
  destruct (solved nonce start); eauto.
Qed.

(** A solution at or after [start] is found by the loop, at the least
    solution after [start]. *)
Lemma mine_loop_finds (nonce start k : Z) :
  start <= k -> solved nonce k = true ->
  exists s, start <= s <= k /\ mine_loop (S (Z.to_nat (k - start))) nonce start = Normal s.
Proof.
  intros Hle Hk. remember (Z.to_nat (k - start)) as n eqn:En.
  revert start Hle En. induction n as [|n IH]; intros start Hle En.
  - assert (start = k) as -> by lia. exists k. simpl. rewrite Hk. split; [lia|reflexivity].
  - change (mine_loop (S (S n)) nonce start)
      with (if solved nonce start then Normal start else mine_loop (S n) nonce (start + 1)).
    destruct (solved nonce start) eqn:Hs; [exists start; split; [lia|reflexivity]|].
    destruct (IH (start + 1)) as (s & Hs' & Hm); [|lia|].
    + destruct (Z.eq_dec start k) as [->|]; [congruence|lia].
    + exists s. split; [lia|exact Hm].
Qed.

(** ** What [mine] computes *)

Lemma mine_iff (fuel : nat) (nonce s : Z) :
  mine fuel nonce = Normal s <-> least_solution nonce s /\ (Z.to_nat s <= fuel)%nat.
Proof.
  unfold mine, least_solution. split.
  - intros H. destruct (mine_loop_normal _ _ _ _ H) as (Hr & Hs & Hm).
    repeat split; auto; lia.
  - intros ((H1 & H2 & H3) & Hf). apply mine_loop_reaches; auto; lia.
Qed.

(** C5: [mine] returns [s] exactly when [s] is the least positive solution
    and the fuel covers the [s] iterations the loop makes. *)
Theorem mine_spec (fuel : nat) (nonce s : Z) :
  mine fuel nonce = Normal s <-> least_solution nonce s /\ (Z.to_nat s <= fuel)%nat.
Proof. apply mine_iff. Qed.

(** The value returned by [mine] is the least positive [solution] whose
    attempt starts with ["0000"]. *)
Theorem mine_least (fuel : nat) (nonce s : Z) :
  mine fuel nonce = Normal s -> least_solution nonce s.
Proof. intros H. apply mine_iff in H. tauto. Qed.

(** C9: If some positive [solution] solves the puzzle, [mine] returns, and
    the fuel it needs is the least solution. *)
Theorem mine_terminates (nonce k : Z) :
  1 <= k -> solved nonce k = true ->
  exists s, least_solution nonce s /\
            forall fuel, (Z.to_nat s <= fuel)%nat -> mine fuel nonce = Normal s.
Proof.
  intros Hk Hsol. destruct (mine_loop_finds nonce 1 k Hk Hsol) as (s & _ & Hm).
  apply mine_iff in Hm as [Hl _]. exists s. split; [exact Hl|].
  intros fuel Hf. apply mine_iff. auto.
Qed.

Lemma mine_no_solution (nonce : Z) :
  (forall k, 1 <= k -> solved nonce k = false) ->
  forall fuel, mine fuel nonce = Diverge.
Proof. intros H fuel. apply mine_loop_diverge, H. Qed.

(** C10: If no positive [solution] solves the puzzle, [mine] never returns. *)
Theorem mine_diverges (nonce : Z) :
  (forall k, 1 <= k -> solved nonce k = false) ->
  forall fuel, mine fuel nonce = Diverge.
Proof. apply mine_no_solution. Qed.

(** The attempt depends on [nonce + solution] only. *)
Lemma attempt_shift (nonce solution : Z) :
  attempt (nonce + 1) solution = attempt nonce (solution + 1).
Proof. unfold attempt. f_equal. f_equal. ring. Qed.

Lemma solved_shift (nonce solution : Z) :
  solved (nonce + 1) solution = solved nonce (solution + 1).
Proof. unfold solved. now rewrite attempt_shift. Qed.

(** C24: The hashed string is the numeric sum [nonce + solution]: raising the
    seed by one lowers the returned solution by one, as long as it stays
    positive. *)
Theorem mine_shift (fuel : nat) (nonce s : Z) :
  mine (S fuel) nonce = Normal s -> 2 <= s -> mine fuel (nonce + 1) = Normal (s - 1).
Proof.
  intros H Hs. apply mine_iff in H as ((H1 & H2 & H3) & Hf).
  apply mine_iff. repeat split; try lia.
  - rewrite solved_shift. replace (s - 1 + 1) with s by ring. exact H2.
  - intros k Hk. rewrite solved_shift. apply H3. lia.
Qed.

(** ** The loop without fuel

    The [while(true)] loop as a big-step relation: [mine_exec nonce sol r]
    holds when the loop, entered with [solution = sol], returns [r].  It
    has no fuel, so it describes the unbounded loop of the source. *)
Inductive mine_exec (nonce : Z) : Z -> Z -> Prop :=
| exec_found (sol : Z) :
    solved nonce sol = true -> mine_exec nonce sol sol
| exec_next (sol r : Z) :
    solved nonce sol = false -> mine_exec nonce (sol + 1) r -> mine_exec nonce sol r.

Lemma mine_exec_loop (nonce start r : Z) :
  mine_exec nonce start r <-> exists fuel, mine_loop fuel nonce start = Normal r.
Proof.
  split.
  - induction 1 as [sol Hs | sol r Hs _ (fuel & IH)].
    + exists 1%nat. simpl. rewrite Hs. reflexivity.
    + exists (S fuel). simpl. rewrite Hs. exact IH.
  - intros (fuel & H). revert start H. induction fuel as [|f IH]; intros start H;
      simpl in H; [discriminate|].
    destruct (solved nonce start) eqn:Hs.
    + injection H as <-. apply exec_found, Hs.
    + apply exec_next; [exact Hs | apply IH, H].
Qed.

Lemma mine_exec_solved (nonce start r : Z) :
  mine_exec nonce start r -> start <= r /\ solved nonce r = true.
Proof.
  induction 1; [split; [lia | assumption] |].
  match goal with IH : _ /\ _ |- _ => destruct IH end. split; [lia | assumption].
Qed.

Lemma mine_exec_det (nonce start r1 r2 : Z) :
  mine_exec nonce start r1 -> mine_exec nonce start r2 -> r1 = r2.
Proof.
  intros H1 H2. apply mine_exec_loop in H1 as (f1 & H1), H2 as (f2 & H2).
  apply mine_loop_normal in H1 as (R1 & S1 & M1), H2 as (R2 & S2 & M2).
  destruct (Z.lt_total r1 r2) as [Hlt|[E|Hlt]]; [|exact E|].
  - rewrite M2 in S1 by lia. discriminate.
  - rewrite M1 in S2 by lia. discriminate.
Qed.

(** The fuelled [mine] agrees with the unbounded loop [mine_exec]: the
    loop returns [s] exactly when some fuel makes [mine] return [s], it
    has at most one result, and none when no positive counter solves the
    puzzle. *)
Lemma mine_exec_iff (nonce s : Z) :
  (mine_exec nonce 1 s <-> exists fuel, mine fuel nonce = Normal s) /\
  (forall s', mine_exec nonce 1 s' -> mine_exec nonce 1 s -> s' = s) /\
  ((forall k, 1 <= k -> solved nonce k = false) -> ~ mine_exec nonce 1 s).
Proof.
  split; [apply mine_exec_loop|]. split; [intros s1 H1 H2; exact (mine_exec_det _ _ _ _ H1 H2)|].
  intros Hno H. apply mine_exec_solved in H as [Hle Hs]. rewrite Hno in Hs by lia.
  discriminate.
Qed.

End Mine.

(** ** Mining with Node's MD5 *)
Section NodeMining.
Import Crypto.Node.

(** C28: With Node's MD5, the test of line 65, [attempt.substr(0,4) ===
    '0000'] on the hexadecimal digest, holds exactly when the first two
    bytes of the MD5 digest of [(nonce + solution).toString()] are zero:
    the puzzle is the one the specification describes, a digest whose
    leading 16 bits are zero. *)
Theorem solved_node_zero_bytes (nonce solution : Z) :
  solved nonce solution = true <->
  exists rest, Md5.md5 (Bytes.utf8_encode (Json.number_to_string (nonce + solution)))
               = (0 :: 0 :: rest)%list.
Proof.
  unfold solved, attempt. cbn [md5_hex node_digests]. unfold Md5.md5_hex.
  set (m := Bytes.utf8_encode (Json.number_to_string (nonce + solution))).
  pose proof (Md5.length_md5 m) as Hl. pose proof (Md5.md5_bytes m) as Hb.
  destruct (Md5.md5 m) as [|b0 [|b1 rest]]; try discriminate.
  apply Bytes.bytes_ok_cons in Hb as [H0 Hb]. apply Bytes.bytes_ok_cons in Hb as [H1 _].
  rewrite Bytes.to_hex_zero2 by assumption. split.
  - intros [-> ->]. eauto.
  - intros (r & Hr). injection Hr as -> -> _. auto.
Qed.

(** A run with the real MD5: the block nonce 5320 is solved by 9
    ([md5("5329")] starts with ["0000"], no numeral from ["5321"] to
    ["5328"] does), so [mine(5320)] returns 9 exactly when the fuel is at
    least 9. *)
Example mine_node_5320 (fuel : nat) :
  (mine fuel 5320 = Normal 9 <-> (9 <= fuel)%nat) /\
  least_solution 5320 9.
Proof.
  assert (Hl : least_solution 5320 9).
  { split; [lia|]. split; [vm_compute; reflexivity|].
    intros k Hk. assert (k = 1 \/ k = 2 \/ k = 3 \/ k = 4 \/ k = 5 \/ k = 6 \/ k = 7 \/ k = 8)
      as Hc by lia.
    repeat (destruct Hc as [->|Hc]; [vm_compute; reflexivity|]). subst. vm_compute. reflexivity. }
  split; [|exact Hl]. rewrite mine_iff. change (Z.to_nat 9) with 9%nat. tauto.
Qed.

End NodeMining.

Section Witnesses.
Import Crypto.Ideal.

(** Under [toy_digests] the nonce 3 is solved by 4 (3 + 4 = 7). *)
Example mine_terminates_witness :
  exists s, Mining.least_solution 3 s /\
            forall fuel, (Z.to_nat s <= fuel)%nat -> Mining.mine fuel 3 = Normal s.
Proof. apply (Mining.mine_terminates 3 4); [lia | vm_compute; reflexivity]. Defined.

Example mine_diverges_witness : @Mining.mine flat_digests 1000 3 = Diverge.
Proof. apply Mining.mine_diverges. intros k _. reflexivity. Defined.

Example mine_shift_witness : Mining.mine 10 4 = Normal 3.
Proof. apply (Mining.mine_shift 10 3 4); [vm_compute; reflexivity | lia]. Defined.

End Witnesses.

End Mining.
