(* ===== verification/Chain.v ===== *)
(** * [class Chain] (src/index.ts:37-86)

    The ledger: an array of blocks that starts with a genesis block, and the
    admission protocol [addBlock] (verify the signature, link a new block to
    the hash of the last one, run the proof-of-work search, append).  The
    file proves the chain invariant (genesis first, every block linked to
    its predecessor's hash) for every reachable chain, the behaviour of
    [addBlock] on each of its branches, that the chain is append-only, that
    it refines an abstract ledger of authorised transactions, and, for a
    collision-free digest, that the last block determines the whole chain.
    Against the signature laws of [Crypto] it proves what the authorisation
    check does and does not guarantee: a wrong key never adds a block, but
    the payer field is unchecked and replays are accepted. *)

From Stdlib Require Import String ZArith List Lia Bool.
From S2P Require Import Prelude Json Bytes Crypto Transaction Block Mining.
Import ListNotations Crypto Transaction Block.

Module Chain.

(** [chain: Block[]] *)
Record Chain : Type := mkChain { chain : list Block }.

(** [new Transaction(100, 'genesis', 'satoshi')] *)
Definition genesis_transaction : Transaction := mkTransaction 100 "genesis"%string "satoshi"%string.

(** [this.lastBlock.hash] on [undefined]. *)
Definition undefined_hash_error : js_error :=
  TypeError "Cannot read properties of undefined (reading 'hash')"%string.

Section Ops.
Context `{D : Digests} `{Sg : Signer}.

(** [constructor() { this.chain = [new Block('', new Transaction(100,
    'genesis', 'satoshi'))]; }], run once for [Chain.instance]; [now] and
    [rnd] are the genesis block's clock and random draws. *)
Definition Chain_new (now : Z) (rnd : Random) : Chain :=
  {| chain := [new_Block ""%string genesis_transaction now rnd] |}.

(** [get lastBlock() { return this.chain[this.chain.length - 1]; }]:
    [undefined] ([None]) on an empty array. *)
Definition lastBlock (c : Chain) : option Block :=
  nth_error (chain c) (length (chain c) - 1).

(** [addBlock(transaction, senderPublicKey, signature)].  [now] and [rnd]
    are the draws of [new Block]; [fuel] bounds the mining loop.  An
    exception of [verify.verify] propagates (there is no [try]); the
    result of [this.mine(newBlock.nonce)] is discarded. *)
Definition addBlock (fuel : nat) (now : Z) (rnd : Random) (c : Chain)
    (transaction : Transaction) (senderPublicKey : string) (sig : signature)
  : completion Chain :=
  isValid <- verify (Transaction.toString transaction) senderPublicKey sig ;;
  if isValid then
    match lastBlock c with
    | None => Throw undefined_hash_error
    | Some last =>
        let newBlock := new_Block (hash last) transaction now rnd in
        _ <- Mining.mine fuel (nonce newBlock) ;;
        ret {| chain := chain c ++ [newBlock] |}
    end
  else ret c.

(** ** The chain invariant *)

(** Every block's [prevHash] is the hash of the block before it. *)
Fixpoint links_ok (bs : list Block) : bool :=
  match bs with
  | b1 :: ((b2 :: _) as rest) => String.eqb (prevHash b2) (hash b1) && links_ok rest
  | _ => true
  end.

Definition is_genesis (b : Block) : bool :=
  String.eqb (prevHash b) ""%string && Transaction.eqb (transaction b) genesis_transaction.

(** A non-empty chain whose first block is a genesis block and whose blocks
    are linked. *)
Definition valid_chain (c : Chain) : bool :=
  match chain c with
  | g :: _ => is_genesis g && links_ok (chain c)
  | [] => false
  end.

(** The linkage property of the spec: [chain[i+1].prevHash == hash(chain[i])]. *)
Definition Linked (bs : list Block) : Prop :=
  forall i b b', nth_error bs i = Some b -> nth_error bs (S i) = Some b' ->
  prevHash b' = hash b.

Lemma links_ok_Linked (bs : list Block) : links_ok bs = true <-> Linked bs.
Proof.
  unfold Linked. induction bs as [|b1 [|b2 bs] IH].
  - split; [intros _ [|i] ? ? H; discriminate | reflexivity].
  - split; [intros _ [|i] ? ? _ H; [discriminate | destruct i; discriminate]
           | reflexivity].
  - change (links_ok (b1 :: b2 :: bs))
      with (String.eqb (prevHash b2) (hash b1) && links_ok (b2 :: bs)).
    rewrite andb_true_iff, String.eqb_eq, IH. split.
    + intros [Hh Ht] [|i] b b' Hb Hb'; simpl in Hb, Hb'.
      * injection Hb as <-. injection Hb' as <-. exact Hh.
      * exact (Ht i b b' Hb Hb').
    + intros H. split; [apply (H 0%nat); reflexivity|].
      intros i b b' Hb Hb'. exact (H (S i) b b' Hb Hb').
Qed.

Lemma links_ok_snoc (bs : list Block) (b d : Block) :
  bs <> [] ->
  links_ok (bs ++ [b]) = links_ok bs && String.eqb (prevHash b) (hash (last bs d)).
Proof.
  intros Hne. induction bs as [|b1 [|b2 bs] IH]; [congruence| |].
  - simpl. rewrite andb_true_r. reflexivity.
  - change (links_ok ((b1 :: b2 :: bs) ++ [b]))
      with (String.eqb (prevHash b2) (hash b1) && links_ok ((b2 :: bs) ++ [b])).
    change (links_ok (b1 :: b2 :: bs))
      with (String.eqb (prevHash b2) (hash b1) && links_ok (b2 :: bs)).
    change (last (b1 :: b2 :: bs) d) with (last (b2 :: bs) d).
    rewrite IH by discriminate. apply andb_assoc.
Qed.

Lemma lastBlock_some (c : Chain) : chain c <> [] -> exists b, lastBlock c = Some b.
Proof.
  intros Hne. unfold lastBlock. destruct (nth_error _ _) eqn:E; [eauto|].
  apply nth_error_None in E. destruct (chain c); [congruence | simpl in E; lia].
Qed.

Lemma lastBlock_last (c : Chain) (d : Block) :
  chain c <> [] -> lastBlock c = Some (last (chain c) d).
Proof.
  intros Hne. unfold lastBlock. rewrite Nat.sub_1_r. apply nth_error_last, Hne.
Qed.

(** ** [addBlock], branch by branch *)

(** C20: An exception of [verify.verify] (for instance on a malformed public
    key) propagates out of [addBlock]: the transaction is not silently
    rejected. *)
Theorem addBlock_verify_throws (fuel : nat) (now : Z) (rnd : Random) (c : Chain)
    (tx : Transaction) (pk : string) (sig : signature) (e : js_error) :
  verify (Transaction.toString tx) pk sig = Throw e ->
  addBlock fuel now rnd c tx pk sig = Throw e.
Proof. intros H. unfold addBlock. rewrite H. reflexivity. Qed.

(** C4: An invalid signature leaves the chain as it was. *)
Theorem addBlock_rejected (fuel : nat) (now : Z) (rnd : Random) (c : Chain)
    (tx : Transaction) (pk : string) (sig : signature) :
  verify (Transaction.toString tx) pk sig = Normal false ->
  addBlock fuel now rnd c tx pk sig = Normal c.
Proof. intros H. unfold addBlock. rewrite H. reflexivity. Qed.

Lemma addBlock_valid_sig (fuel : nat) (now : Z) (rnd : Random) (c : Chain)
    (tx : Transaction) (pk : string) (sig : signature) (s : Z) (d : Block) :
  verify (Transaction.toString tx) pk sig = Normal true ->
  chain c <> [] ->
  Mining.mine fuel (drawn_nonce rnd) = Normal s ->
  addBlock fuel now rnd c tx pk sig =
    Normal {| chain := chain c ++ [new_Block (hash (last (chain c) d)) tx now rnd] |}.
Proof.
  intros Hv Hne Hm. unfold addBlock. rewrite Hv, (lastBlock_last c d Hne).
  simpl. rewrite Hm. reflexivity.
Qed.

(** C3: A valid signature appends one block, linked to the hash of the last
    block, holding the transaction, the clock draw and the random nonce,
    as soon as the mining loop returns. *)
Theorem addBlock_accepted (fuel : nat) (now : Z) (rnd : Random) (c : Chain)
    (tx : Transaction) (pk : string) (sig : signature) (s : Z) (d : Block) :
  verify (Transaction.toString tx) pk sig = Normal true ->
  chain c <> [] ->
  Mining.mine fuel (drawn_nonce rnd) = Normal s ->
  addBlock fuel now rnd c tx pk sig =
    Normal {| chain := chain c ++ [new_Block (hash (last (chain c) d)) tx now rnd] |}.
Proof. apply addBlock_valid_sig. Qed.

(** C22: A valid signature whose block's nonce has no proof-of-work solution
    blocks the caller forever. *)
Theorem addBlock_diverges (fuel : nat) (now : Z) (rnd : Random) (c : Chain)
    (tx : Transaction) (pk : string) (sig : signature) :
  verify (Transaction.toString tx) pk sig = Normal true ->
  chain c <> [] ->
  (forall k, (1 <= k)%Z -> Mining.solved (drawn_nonce rnd) k = false) ->
  addBlock fuel now rnd c tx pk sig = Diverge.
Proof.
  intros Hv Hne Hs. unfold addBlock. rewrite Hv.
  destruct (lastBlock_some c Hne) as [b ->]. simpl.
  rewrite Mining.mine_no_solution by exact Hs. reflexivity.
Qed.

(** Every normal outcome of [addBlock] is one of the two branches. *)
Lemma addBlock_normal_inv (fuel : nat) (now : Z) (rnd : Random) (c c' : Chain)
    (tx : Transaction) (pk : string) (sig : signature) :
  addBlock fuel now rnd c tx pk sig = Normal c' ->
  (verify (Transaction.toString tx) pk sig = Normal false /\ c' = c) \/
  (verify (Transaction.toString tx) pk sig = Normal true /\
   exists last s, lastBlock c = Some last /\ Mining.mine fuel (drawn_nonce rnd) = Normal s /\
   c' = {| chain := chain c ++ [new_Block (hash last) tx now rnd] |}).
Proof.
  unfold addBlock. intros H. apply bind_eq_normal in H as ([|] & Hv & H).
  - right. split; [exact Hv|]. destruct (lastBlock c) as [last|]; [|discriminate].
    apply bind_eq_normal in H as (s & Hm & H). injection H as <-. eauto.
  - left. injection H as <-. auto.
Qed.

(** ** The chain invariant holds on every reachable chain *)

Lemma valid_chain_nonempty (c : Chain) : valid_chain c = true -> chain c <> [].
Proof. unfold valid_chain. destruct (chain c); [discriminate | congruence]. Qed.

Lemma valid_chain_snoc (c : Chain) (b d : Block) :
  valid_chain c = true -> prevHash b = hash (last (chain c) d) ->
  valid_chain {| chain := chain c ++ [b] |} = true.
Proof.
  intros Hc Hb. pose proof (valid_chain_nonempty c Hc) as Hne.
  unfold valid_chain in *. simpl. destruct (chain c) as [|g rest] eqn:E; [congruence|].
  simpl app. apply andb_true_iff in Hc as [Hg Hl]. rewrite Hg, andb_true_l.
  change (g :: rest ++ [b]) with ((g :: rest) ++ [b]).
  rewrite (links_ok_snoc _ b d) by discriminate. rewrite Hl, Hb, String.eqb_refl.
  reflexivity.
Qed.

Lemma addBlock_valid_chain (fuel : nat) (now : Z) (rnd : Random) (c c' : Chain)
    (tx : Transaction) (pk : string) (sig : signature) :
  valid_chain c = true ->
  addBlock fuel now rnd c tx pk sig = Normal c' ->
  valid_chain c' = true.
Proof.
  intros Hc H. apply addBlock_normal_inv in H
    as [[_ ->] | (_ & last & s & Hl & _ & ->)]; [exact Hc|].
  pose proof (valid_chain_nonempty c Hc) as Hne.
  rewrite (lastBlock_last c last Hne) in Hl. injection Hl as Hl.
  apply (valid_chain_snoc c _ last Hc). simpl. now rewrite Hl.
Qed.

(** C2: [addBlock] preserves the chain invariant. *)
Theorem addBlock_preserves_valid (fuel : nat) (now : Z) (rnd : Random) (c c' : Chain)
    (tx : Transaction) (pk : string) (sig : signature) :
  valid_chain c = true ->
  addBlock fuel now rnd c tx pk sig = Normal c' ->
  valid_chain c' = true.
Proof. apply addBlock_valid_chain. Qed.

(** The chains the program can reach: [Chain.instance] after any sequence
    of [addBlock] calls that returned. *)
Inductive reachable : Chain -> Prop :=
| reachable_new (now : Z) (rnd : Random) : reachable (Chain_new now rnd)
| reachable_add (c c' : Chain) (fuel : nat) (now : Z) (rnd : Random) (tx : Transaction)
    (pk : string) (sig : signature) :
    reachable c -> addBlock fuel now rnd c tx pk sig = Normal c' -> reachable c'.

Lemma reachable_inv (c : Chain) : reachable c -> valid_chain c = true.
Proof.
  induction 1 as [now rnd|c c' fuel now rnd tx pk sig _ IH H].
  - reflexivity.
  - exact (addBlock_valid_chain _ _ _ _ _ _ _ _ IH H).
Qed.

(** The invariant, unfolded: a genesis block first, then linked blocks. *)
Lemma valid_chain_spec (c : Chain) :
  valid_chain c = true ->
  (exists g rest, chain c = g :: rest /\ prevHash g = ""%string /\
                  transaction g = genesis_transaction) /\
  Linked (chain c).
Proof.
  unfold valid_chain. intros Hr.
  destruct (chain c) as [|g rest] eqn:E; [discriminate|].
  apply andb_true_iff in Hr as [Hg Hl]. unfold is_genesis in Hg.
  apply andb_true_iff in Hg as [Hp Ht].
  apply String.eqb_eq in Hp. apply Transaction.eqb_eq in Ht.
  split; [eauto | apply links_ok_Linked, Hl].
Qed.

(** C1: On every reachable chain the genesis block comes first and every other
    block's [prevHash] is the hash of the block before it. *)
Theorem reachable_linked (c : Chain) :
  reachable c ->
  (exists g rest, chain c = g :: rest /\ prevHash g = ""%string /\
                  transaction g = genesis_transaction) /\
  Linked (chain c).
Proof. intros Hr. apply valid_chain_spec, reachable_inv, Hr. Qed.

(** C21: On a reachable chain [lastBlock] is never [undefined], so the only
    exception [addBlock] can raise is one of [verify.verify]. *)
Theorem addBlock_throw_only_verify (fuel : nat) (now : Z) (rnd : Random) (c : Chain)
    (tx : Transaction) (pk : string) (sig : signature) (e : js_error) :
  reachable c ->
  addBlock fuel now rnd c tx pk sig = Throw e ->
  verify (Transaction.toString tx) pk sig = Throw e.
Proof.
  intros Hr H. pose proof (valid_chain_nonempty c (reachable_inv c Hr)) as Hne.
  unfold addBlock in H. apply bind_eq_throw in H as [H | ([|] & Hv & H)]; [exact H| |].
  - destruct (lastBlock_some c Hne) as [b Hb]. rewrite Hb in H.
    destruct (Mining.mine_loop_cases fuel (drawn_nonce rnd) 1) as [Hm | [z Hm]];
      cbn [nonce new_Block] in H; unfold Mining.mine in H; rewrite Hm in H; discriminate.
  - discriminate.
Qed.

(** The nonce of every block on a reachable chain was drawn by line 19. *)
Lemma reachable_nonces (c : Chain) :
  reachable c -> Forall (fun b => nonce_in_range (nonce b) = true) (chain c).
Proof.
  induction 1 as [now rnd|c c' fuel now rnd tx pk sig _ IH H].
  - constructor; [apply new_Block_nonce | constructor].
  - apply addBlock_normal_inv in H as [[_ ->] | (_ & last & s & _ & _ & ->)]; [exact IH|].
    apply Forall_app. split; [exact IH | constructor; [apply new_Block_nonce | constructor]].
Qed.

(** C27: Every block of a reachable chain has a nonce in
    [[0, 999999999]], whatever [Math.random()] returned for it: the range
    of line 19 is an invariant of the chain. *)
Theorem reachable_nonces_in_range (c : Chain) (b : Block) :
  reachable c -> In b (chain c) -> nonce_in_range (nonce b) = true.
Proof.
  intros Hr Hb. apply reachable_nonces in Hr. rewrite Forall_forall in Hr. exact (Hr b Hb).
Qed.

(** ** Length, append-only, refinement *)

(** C8: [addBlock] adds exactly one block when the signature verifies, and none
    when it does not. *)
Theorem addBlock_length (fuel : nat) (now : Z) (rnd : Random) (c c' : Chain)
    (tx : Transaction) (pk : string) (sig : signature) (ok : bool) :
  verify (Transaction.toString tx) pk sig = Normal ok ->
  addBlock fuel now rnd c tx pk sig = Normal c' ->
  length (chain c') = length (chain c) + (if ok then 1 else 0).
Proof.
  intros Hv H. apply addBlock_normal_inv in H
    as [[Hv' ->] | (Hv' & last & s & _ & _ & ->)];
    rewrite Hv in Hv'; injection Hv' as ->; simpl; [lia|].
  rewrite length_app. simpl. lia.
Qed.

(** Sequences of [addBlock] calls that return. *)
Inductive steps : Chain -> Chain -> Prop :=
| steps_refl (c : Chain) : steps c c
| steps_add (c c' c'' : Chain) (fuel : nat) (now : Z) (rnd : Random) (tx : Transaction)
    (pk : string) (sig : signature) :
    addBlock fuel now rnd c tx pk sig = Normal c' -> steps c' c'' -> steps c c''.

(** C13: The chain is append-only: blocks are never removed, replaced or
    reordered. *)
Theorem steps_append_only (c c' : Chain) :
  steps c c' -> exists ext, chain c' = chain c ++ ext.
Proof.
  induction 1 as [c|c c' c'' fuel now rnd tx pk sig H _ (ext & IH)].
  - exists []. symmetry. apply app_nil_r.
  - apply addBlock_normal_inv in H as [[_ ->] | (_ & last & s & _ & _ & ->)].
    + eauto.
    + simpl in IH. rewrite <- app_assoc in IH. eauto.
Qed.

(** The abstract ledger: the list of transactions the chain records. *)
Definition ledger (c : Chain) : list Transaction := map transaction (chain c).

(** The abstract operation: record [tx] when its signature verified. *)
Definition authorise (L : list Transaction) (tx : Transaction) (ok : bool)
  : list Transaction :=
  if ok then L ++ [tx] else L.

Lemma addBlock_ledger (fuel : nat) (now : Z) (rnd : Random) (c c' : Chain)
    (tx : Transaction) (pk : string) (sig : signature) (ok : bool) :
  verify (Transaction.toString tx) pk sig = Normal ok ->
  addBlock fuel now rnd c tx pk sig = Normal c' ->
  ledger c' = authorise (ledger c) tx ok.
Proof.
  intros Hv H. apply addBlock_normal_inv in H
    as [[Hv' ->] | (Hv' & last & s & _ & _ & ->)];
    rewrite Hv in Hv'; injection Hv' as ->; [reflexivity|].
  unfold ledger, authorise. simpl. rewrite map_app. reflexivity.
Qed.

(** C12: [addBlock] implements [authorise] on the ledger. *)
Theorem addBlock_refines (fuel : nat) (now : Z) (rnd : Random) (c c' : Chain)
    (tx : Transaction) (pk : string) (sig : signature) (ok : bool) :
  verify (Transaction.toString tx) pk sig = Normal ok ->
  addBlock fuel now rnd c tx pk sig = Normal c' ->
  ledger c' = authorise (ledger c) tx ok.
Proof. apply addBlock_ledger. Qed.

(** The ledgers of the abstract specification: the genesis transaction,
    then every transaction whose signature verified, in submission order. *)
Inductive ledger_reachable : list Transaction -> Prop :=
| ledger_init : ledger_reachable [genesis_transaction]
| ledger_step (L : list Transaction) (tx : Transaction) (pk : string)
    (sig : signature) (ok : bool) :
    ledger_reachable L -> verify (Transaction.toString tx) pk sig = Normal ok ->
    ledger_reachable (authorise L tx ok).

(** C11: Every reachable chain records a ledger of the abstract specification. *)
Theorem reachable_refines (c : Chain) : reachable c -> ledger_reachable (ledger c).
Proof.
  induction 1 as [now rnd|c c' fuel now rnd tx pk sig _ IH H].
  - apply ledger_init.
  - assert (exists ok, verify (Transaction.toString tx) pk sig = Normal ok) as [ok Hv]
      by (apply addBlock_normal_inv in H as [[Hv _] | [Hv _]]; eauto).
    rewrite (addBlock_ledger _ _ _ _ _ _ _ _ ok Hv H).
    exact (ledger_step _ _ _ _ _ IH Hv).
Qed.

(** ** Tamper evidence *)

Section Tamper.
Hypothesis sha_inj : forall s1 s2, sha256_hex s1 = sha256_hex s2 -> s1 = s2.

(** C14: For a collision-free digest, the last block of a linked sequence
    determines every block before it: no block can be changed without
    breaking a link. *)
Theorem linked_history_unique (l1 l2 : list Block) (b : Block) :
  length l1 = length l2 ->
  links_ok (l1 ++ [b]) = true -> links_ok (l2 ++ [b]) = true -> l1 = l2.
Proof.
  revert l2 b. induction l1 as [|x l1 IH] using rev_ind; intros l2 b Hlen H1 H2.
  - destruct l2; [reflexivity | discriminate].
  - induction l2 as [|y l2 _] using rev_ind;
      [rewrite length_app in Hlen; simpl in Hlen; lia|].
    rewrite !length_app in Hlen. simpl in Hlen.
    rewrite (links_ok_snoc _ b x), last_snoc in H1 by apply snoc_neq_nil.
    rewrite (links_ok_snoc _ b y), last_snoc in H2 by apply snoc_neq_nil.
    apply andb_true_iff in H1 as [H1 Hx]. apply andb_true_iff in H2 as [H2 Hy].
    apply String.eqb_eq in Hx, Hy.
    assert (x = y) as <- by (apply (Block.hash_inj sha_inj); congruence).
    rewrite (IH l2 x) by (lia || assumption). reflexivity.
Qed.

End Tamper.

End Ops.

(** ** The shape of stored hashes *)
Section Shape.
Context `{D : Digests} {DL : DigestLaws} `{Sg : Signer}.

(** C25: On every reachable chain the first block's [prevHash] is the
    empty string and every other block's [prevHash] is a digest: 64
    lowercase hexadecimal characters. *)
Theorem reachable_prevHash_shape (c : Chain) (i : nat) (b : Block) :
  reachable c -> nth_error (chain c) i = Some b ->
  (i = 0%nat /\ prevHash b = ""%string) \/
  ((0 < i)%nat /\ String.length (prevHash b) = 64%nat /\ Bytes.is_hex (prevHash b) = true).
Proof.
  intros Hr Hb. apply reachable_inv, valid_chain_spec in Hr as [(g & rest & E & Hg & _) HL].
  destruct i as [|j].
  - left. rewrite E in Hb. injection Hb as <-. auto.
  - right. destruct (nth_error (chain c) j) as [p|] eqn:Hp.
    + rewrite (HL j p b Hp Hb). split; [lia | apply sha256_shape].
    + apply nth_error_None in Hp. assert (nth_error (chain c) (S j) = None) as Hn
        by (apply nth_error_None; lia). congruence.
Qed.

End Shape.

(** ** The mined solution is not bound into the block *)

Section ProofOfWork.
Context `{Sg : Signer}.

(** C23: Two digest implementations that agree on SHA-256 but differ on MD5
    make [addBlock] produce the same chain whenever both return: the
    proof-of-work result never reaches the stored state. *)
Theorem addBlock_pow_unbound (D1 D2 : Digests)
    (Hsha : forall s, @sha256_hex D1 s = @sha256_hex D2 s)
    (fuel1 fuel2 : nat) (now : Z) (rnd : Random) (c c1 c2 : Chain)
    (tx : Transaction) (pk : string) (sig : signature) :
  @addBlock D1 Sg fuel1 now rnd c tx pk sig = Normal c1 ->
  @addBlock D2 Sg fuel2 now rnd c tx pk sig = Normal c2 ->
  c1 = c2.
Proof.
  intros H1 H2.
  apply addBlock_normal_inv in H1 as [[Hv1 ->] | (Hv1 & l1 & s1 & Hl1 & _ & ->)];
  apply addBlock_normal_inv in H2 as [[Hv2 ->] | (Hv2 & l2 & s2 & Hl2 & _ & ->)];
    try congruence.
  rewrite Hl1 in Hl2. injection Hl2 as <-. unfold Block.hash. rewrite Hsha.
  reflexivity.
Qed.

End ProofOfWork.

(** ** Authorisation *)

Section Authorisation.
Context `{D : Digests} `{Sg : Signer} {L : @SignerLaws Sg}.

(** C7: A signature made with another wallet's private key never adds a
    block: [addBlock] returns the chain unchanged (or throws). *)
Theorem addBlock_wrong_key (fuel : nat) (now : Z) (rnd : Random) (c c' : Chain)
    (tx : Transaction) (i j : nat) (sig : signature) :
  i <> j ->
  sign (Transaction.toString tx) (privateKey_of j) = Normal sig ->
  addBlock fuel now rnd c tx (publicKey_of i) sig = Normal c' ->
  c' = c.
Proof.
  intros Hij Hs H.
  apply addBlock_normal_inv in H as [[_ ->] | (Hv & _)]; [reflexivity|].
  destruct (sign_binding i j _ _ sig Hs Hv) as [E _]. contradiction.
Qed.

(** C18: The signature is checked against the submitted public key only: a
    wallet can sign and submit a transaction whose [payer] is someone
    else's key, and [addBlock] appends it. *)
Theorem forged_payer_accepted (m : nat) (victim payee : string) (amount : Z)
    (fuel : nat) (now : Z) (rnd : Random) (c : Chain) (s : Z) (d : Block) :
  victim <> publicKey_of m ->
  chain c <> [] -> Mining.mine fuel (drawn_nonce rnd) = Normal s ->
  exists sig,
    sign (Transaction.toString (mkTransaction amount victim payee)) (privateKey_of m)
      = Normal sig /\
    addBlock fuel now rnd c (mkTransaction amount victim payee) (publicKey_of m) sig =
      Normal {| chain := chain c ++
                 [new_Block (hash (last (chain c) d))
                            (mkTransaction amount victim payee) now rnd] |}.
Proof.
  intros _ Hne Hm.
  destruct (sign_ok m (Transaction.toString (mkTransaction amount victim payee)))
    as (sig & Hs & Hv).
  exists sig. split; [exact Hs|]. apply (addBlock_valid_sig _ _ _ _ _ _ _ s); assumption.
Qed.

End Authorisation.

Section Replay.
Context `{D : Digests} `{Sg : Signer}.

(** C19: Nothing records which signed transactions were consumed: submitting
    an accepted (transaction, key, signature) triple again appends the
    transaction a second time. *)
Theorem addBlock_replay (fuel : nat) (now1 now2 : Z) (rnd1 rnd2 : Random) (c c1 : Chain)
    (tx : Transaction) (pk : string) (sig : signature) (s2 : Z) :
  verify (Transaction.toString tx) pk sig = Normal true ->
  addBlock fuel now1 rnd1 c tx pk sig = Normal c1 ->
  Mining.mine fuel (drawn_nonce rnd2) = Normal s2 ->
  exists c2, addBlock fuel now2 rnd2 c1 tx pk sig = Normal c2 /\
             ledger c2 = ledger c ++ [tx; tx].
Proof.
  intros Hv H1 Hm.
  pose proof (addBlock_ledger _ _ _ _ _ _ _ _ true Hv H1) as Hl1.
  assert (chain c1 <> []) as Hne.
  { apply addBlock_normal_inv in H1 as [[Hv' _] | (_ & l & s & _ & _ & ->)];
      [congruence | apply snoc_neq_nil]. }
  destruct (chain c1) as [|b rest] eqn:E; [congruence|].
  rewrite <- E in Hne.
  eexists. split; [apply (addBlock_valid_sig _ _ _ _ _ _ _ s2 b Hv Hne Hm)|].
  unfold ledger in *. simpl. rewrite map_app, Hl1. simpl. rewrite <- app_assoc.
  reflexivity.
Qed.

End Replay.

(** ** Witnesses

    Concrete runs under the symbolic instances of [Crypto.Ideal]: wallet 0
    pays 50 to wallet 1 on a fresh chain whose genesis nonce is 3. *)
Section Witnesses.
Import Crypto.Ideal.
#[local] Open Scope string_scope.

Definition w_genesis : Block := new_Block "" genesis_transaction 1700000000000 r3.
Definition w_c0 : Chain := Chain_new 1700000000000 r3.
Definition w_tx : Transaction := mkTransaction 50 (pub 0) (pub 1).
Definition w_sig : signature := "SIG" ++ pub 0 ++ "|" ++ Transaction.toString w_tx.
Definition w_block : Block := new_Block (hash w_genesis) w_tx 1700000000001 r3.
Definition w_c1 : Chain := {| chain := [w_genesis; w_block] |}.

Example addBlock_verify_throws_witness :
  addBlock 10 1700000000001 r3 w_c0 w_tx "garbage" w_sig = Throw decoder_error.
Proof. apply addBlock_verify_throws. vm_compute. reflexivity. Defined.

Example addBlock_rejected_witness :
  addBlock 10 1700000000001 r3 w_c0 w_tx (pub 0) "forged" = Normal w_c0.
Proof. apply addBlock_rejected. vm_compute. reflexivity. Defined.

Example addBlock_accepted_witness :
  addBlock 10 1700000000001 r3 w_c0 w_tx (pub 0) w_sig =
    Normal {| chain := (chain w_c0 ++ [new_Block (hash (last (chain w_c0) w_genesis))
                                                 w_tx 1700000000001 r3])%list |}.
Proof.
  apply (addBlock_accepted _ _ _ _ _ _ _ 4);
    [vm_compute; reflexivity | discriminate | vm_compute; reflexivity].
Defined.

Example addBlock_diverges_witness :
  @addBlock flat_digests _ 1000 1700000000001 r3 w_c0 w_tx (pub 0) w_sig = Diverge.
Proof.
  apply addBlock_diverges;
    [vm_compute; reflexivity | discriminate | intros k _; reflexivity].
Defined.

Example addBlock_preserves_valid_witness : valid_chain w_c1 = true.
Proof.
  apply (addBlock_preserves_valid 10 1700000000001 r3 w_c0 w_c1 w_tx (pub 0) w_sig);
    vm_compute; reflexivity.
Defined.

Example reachable_linked_witness :
  (exists g rest, chain w_c1 = g :: rest /\ prevHash g = "" /\
                  transaction g = genesis_transaction) /\ Linked (chain w_c1).
Proof.
  apply reachable_linked.
  apply (reachable_add w_c0 w_c1 10 1700000000001 r3 w_tx (pub 0) w_sig);
    [apply reachable_new | vm_compute; reflexivity].
Defined.

Example addBlock_throw_only_verify_witness :
  verify (Transaction.toString w_tx) "garbage" w_sig = Throw decoder_error.
Proof.
  apply (addBlock_throw_only_verify 10 1700000000001 r3 w_c0);
    [apply reachable_new | vm_compute; reflexivity].
Defined.

Example reachable_nonces_in_range_witness :
  nonce_in_range (nonce w_block) = true.
Proof.
  apply (reachable_nonces_in_range w_c1 w_block).
  - apply (reachable_add w_c0 w_c1 10 1700000000001 r3 w_tx (pub 0) w_sig);
      [apply reachable_new | vm_compute; reflexivity].
  - right. left. reflexivity.
Defined.

Example addBlock_length_witness :
  length (chain w_c1) = length (chain w_c0) + 1.
Proof.
  apply (addBlock_length 10 1700000000001 r3 w_c0 w_c1 w_tx (pub 0) w_sig true);
    vm_compute; reflexivity.
Defined.

Example steps_append_only_witness : exists ext, chain w_c1 = (chain w_c0 ++ ext)%list.
Proof.
  apply steps_append_only.
  apply (steps_add w_c0 w_c1 w_c1 10 1700000000001 r3 w_tx (pub 0) w_sig);
    [vm_compute; reflexivity | apply steps_refl].
Defined.

Example addBlock_refines_witness : ledger w_c1 = authorise (ledger w_c0) w_tx true.
Proof.
  apply (addBlock_refines 10 1700000000001 r3 w_c0 w_c1 w_tx (pub 0) w_sig true);
    vm_compute; reflexivity.
Defined.

Example reachable_refines_witness : ledger_reachable (ledger w_c1).
Proof.
  apply reachable_refines.
  apply (reachable_add w_c0 w_c1 10 1700000000001 r3 w_tx (pub 0) w_sig);
    [apply reachable_new | vm_compute; reflexivity].
Defined.

Example linked_history_unique_witness : [w_genesis] = [w_genesis].
Proof.
  apply (@linked_history_unique toy_digests (fun s1 s2 H => H) [w_genesis] [w_genesis] w_block);
    vm_compute; reflexivity.
Defined.

Example addBlock_pow_unbound_witness : w_c1 = w_c1.
Proof.
  apply (addBlock_pow_unbound toy_digests eager_digests (fun s => eq_refl)
           10 10 1700000000001 r3 w_c0 w_c1 w_c1 w_tx (pub 0) w_sig);
    vm_compute; reflexivity.
Defined.

Example addBlock_wrong_key_witness : w_c0 = w_c0.
Proof.
  apply (addBlock_wrong_key 10 1700000000001 r3 w_c0 w_c0 w_tx 1 0 w_sig);
    [discriminate | vm_compute; reflexivity | vm_compute; reflexivity].
Defined.

Example forged_payer_accepted_witness :
  exists sig,
    sign (Transaction.toString (mkTransaction 50 (pub 0) (pub 2))) (privateKey_of 2)
      = Normal sig /\
    addBlock 10 1700000000001 r3 w_c0 (mkTransaction 50 (pub 0) (pub 2)) (publicKey_of 2) sig =
      Normal {| chain := (chain w_c0 ++
                 [new_Block (hash (last (chain w_c0) w_genesis))
                            (mkTransaction 50 (pub 0) (pub 2)) 1700000000001 r3])%list |}.
Proof.
  apply (forged_payer_accepted 2 (pub 0) (pub 2) 50 10 1700000000001 r3 w_c0 4);
    [vm_compute; discriminate | discriminate | vm_compute; reflexivity].
Defined.

Example addBlock_replay_witness :
  exists c2, addBlock 10 1700000000002 r13 w_c1 w_tx (pub 0) w_sig = Normal c2 /\
             ledger c2 = (ledger w_c0 ++ [w_tx; w_tx])%list.
Proof.
  apply (addBlock_replay 10 1700000000001 1700000000002 r3 r13 w_c0 w_c1 w_tx (pub 0) w_sig 4);
    vm_compute; reflexivity.
Defined.

End Witnesses.

(** ** A run with Node's digests

    The witnesses' payment again, now with the real SHA-256 and MD5 of
    [Crypto.Node] (the signatures stay symbolic): the block nonce 5320 is
    the one [Mining] shows to be solved by 9. *)
Section NodeRun.
Import Crypto.Node.
#[local] Open Scope string_scope.

(** SHA-256 of the JSON text of [w_genesis] (empty [prevHash], the genesis
    transaction, [ts] 1700000000000, [nonce] 3), as Node prints it. *)
Definition genesis_hash_hex : string :=
  "7df9e1181c91c3ed8725ac25b72ae60e0ab8128b7994915fca91eae570fb0d1b".

(** A run with Node's digests: the genesis block created at time
    1700000000000 with nonce 3 hashes to [genesis_hash_hex], as Node
    prints it; a correctly signed payment whose block draws nonce 5320 is
    appended, linked to that hash, when [mine] has 9 iterations, and
    [addBlock] is still mining after 8. *)
Example addBlock_node_run :
  hash w_genesis = genesis_hash_hex /\
  @addBlock _ Crypto.Ideal.ideal_signer 9 1700000000001 r5320 w_c0 w_tx
    (Crypto.Ideal.pub 0) w_sig =
    Normal {| chain := [w_genesis; new_Block genesis_hash_hex w_tx 1700000000001 r5320] |} /\
  @addBlock _ Crypto.Ideal.ideal_signer 8 1700000000001 r5320 w_c0 w_tx
    (Crypto.Ideal.pub 0) w_sig = Diverge.
Proof. split; [|split]; vm_compute; reflexivity. Qed.

Definition n_block : Block := new_Block genesis_hash_hex w_tx 1700000000001 r5320.
Definition n_c1 : Chain := {| chain := [w_genesis; n_block] |}.

Example reachable_prevHash_shape_witness :
  (1%nat = 0%nat /\ prevHash n_block = "") \/
  ((0 < 1)%nat /\ String.length (prevHash n_block) = 64%nat /\
   Bytes.is_hex (prevHash n_block) = true).
Proof.
  apply (@reachable_prevHash_shape _ _ Crypto.Ideal.ideal_signer n_c1 1 n_block).
  - apply (reachable_add w_c0 n_c1 9 1700000000001 r5320 w_tx (Crypto.Ideal.pub 0) w_sig).
    + apply reachable_new.
    + vm_compute. reflexivity.
  - reflexivity.
Defined.

End NodeRun.

End Chain.
