(* ===== verification/Wallet.v ===== *)
(** * [class Wallet] and the script (src/index.ts:89-123)

    A wallet holds an RSA key pair; [sendMoney] builds a transaction from
    the wallet's public key, signs its [toString] with the private key and
    submits it to [Chain.instance.addBlock].  The script creates three
    wallets and makes three payments.  The file proves what a payment does
    and what the script produces. *)

From Stdlib Require Import String ZArith List Lia Bool.
From S2P Require Import Prelude Json Crypto Transaction Block Mining Chain.
Import ListNotations Crypto Transaction Block Chain.

Module Wallet.

(** [public publicKey: string; public privateKey: string;] *)
Record Wallet : Type := mkWallet {
  publicKey : string;
  privateKey : string
}.

Section Ops.
Context `{D : Digests} `{Sg : Signer}.

(** [constructor()]: the [n]-th call of [generateKeyPairSync('rsa', ...)]
    supplies the key pair. *)
Definition Wallet_new (n : nat) : Wallet :=
  {| publicKey := publicKey_of n; privateKey := privateKey_of n |}.

(** [sendMoney(amount, payeePublicKey)], on the chain [c] of
    [Chain.instance]; [now], [rnd] and [fuel] are passed on to
    [addBlock]. *)
Definition sendMoney (fuel : nat) (now : Z) (rnd : Random) (c : Chain) (w : Wallet)
    (amount : Z) (payeePublicKey : string) : completion Chain :=
  let transaction := mkTransaction amount (publicKey w) payeePublicKey in
  signature <- sign (Transaction.toString transaction) (privateKey w) ;;
  addBlock fuel now rnd c transaction (publicKey w) signature.

(** The draws of the four [new Block] calls of a run: the genesis block of
    [Chain.instance], then one block per payment. *)
Record Draws : Type := mkDraws {
  genesis_draw : Z * Random;
  draw1 : Z * Random;
  draw2 : Z * Random;
  draw3 : Z * Random
}.

(** Lines 115-123.  [Chain.instance] is created when the class is
    evaluated, before the wallets.  [console.log] is not modelled. *)
Definition main (fuel : nat) (dr : Draws) : completion Chain :=
  let c0 := Chain_new (fst (genesis_draw dr)) (snd (genesis_draw dr)) in
  let satoshi := Wallet_new 0 in
  let bob := Wallet_new 1 in
  let alice := Wallet_new 2 in
  c1 <- sendMoney fuel (fst (draw1 dr)) (snd (draw1 dr)) c0 satoshi 50 (publicKey bob) ;;
  c2 <- sendMoney fuel (fst (draw2 dr)) (snd (draw2 dr)) c1 bob 23 (publicKey alice) ;;
  sendMoney fuel (fst (draw3 dr)) (snd (draw3 dr)) c2 alice 5 (publicKey bob).

End Ops.

(** ** Payments and the script *)

Section Props.
Context `{D : Digests} `{Sg : Signer}.

Lemma sendMoney_reachable (fuel : nat) (now : Z) (rnd : Random) (c c' : Chain) (w : Wallet)
    (amount : Z) (payee : string) :
  reachable c -> sendMoney fuel now rnd c w amount payee = Normal c' -> reachable c'.
Proof.
  intros Hr H. unfold sendMoney in H. apply bind_eq_normal in H as (sig & _ & H).
  exact (reachable_add _ _ _ _ _ _ _ _ Hr H).
Qed.

Lemma main_reachable (fuel : nat) (dr : Draws) (c : Chain) :
  main fuel dr = Normal c -> reachable c.
Proof.
  unfold main. intros H. bind_inv.
  repeat (eapply sendMoney_reachable; [|eassumption]). apply reachable_new.
Qed.

Context {L : @SignerLaws Sg}.

Lemma sendMoney_signed (fuel : nat) (now : Z) (rnd : Random) (c : Chain) (n : nat)
    (amount : Z) (payee : string) (s : Z) (d : Block) :
  chain c <> [] -> Mining.mine fuel (drawn_nonce rnd) = Normal s ->
  sendMoney fuel now rnd c (Wallet_new n) amount payee =
    Normal {| chain := chain c ++
               [new_Block (hash (last (chain c) d))
                          (mkTransaction amount (publicKey_of n) payee) now rnd] |}.
Proof.
  intros Hne Hm. unfold sendMoney. cbn [publicKey privateKey Wallet_new].
  destruct (sign_ok n (Transaction.toString (mkTransaction amount (publicKey_of n) payee)))
    as (sig & Hs & Hv).
  rewrite Hs. apply (addBlock_valid_sig _ _ _ _ _ _ _ s); assumption.
Qed.

(** C16: A payment from a generated wallet appends one block holding the
    transaction from the wallet's public key, as soon as mining returns. *)
Theorem sendMoney_appends (fuel : nat) (now : Z) (rnd : Random) (c : Chain) (n : nat)
    (amount : Z) (payee : string) (s : Z) (d : Block) :
  chain c <> [] -> Mining.mine fuel (drawn_nonce rnd) = Normal s ->
  sendMoney fuel now rnd c (Wallet_new n) amount payee =
    Normal {| chain := chain c ++
               [new_Block (hash (last (chain c) d))
                          (mkTransaction amount (publicKey_of n) payee) now rnd] |}.
Proof. apply sendMoney_signed. Qed.

(** The ledger the script produces. *)
Definition script_ledger : list Transaction :=
  [genesis_transaction;
   mkTransaction 50 (publicKey_of 0) (publicKey_of 1);
   mkTransaction 23 (publicKey_of 1) (publicKey_of 2);
   mkTransaction 5 (publicKey_of 2) (publicKey_of 1)].

(** C17: When mining returns for the three payments' nonces, the script ends
    with a valid chain of four blocks recording the genesis transaction
    and the three payments in order. *)
Theorem main_result (fuel : nat) (dr : Draws) (s1 s2 s3 : Z) :
  Mining.mine fuel (drawn_nonce (snd (draw1 dr))) = Normal s1 ->
  Mining.mine fuel (drawn_nonce (snd (draw2 dr))) = Normal s2 ->
  Mining.mine fuel (drawn_nonce (snd (draw3 dr))) = Normal s3 ->
  exists c, main fuel dr = Normal c /\ ledger c = script_ledger /\
            valid_chain c = true.
Proof.
  intros H1 H2 H3.
  assert (exists c, main fuel dr = Normal c /\ ledger c = script_ledger)
    as (c & Hm & Hl).
  { set (g := new_Block ""%string genesis_transaction
                (fst (genesis_draw dr)) (snd (genesis_draw dr))).
    unfold main.
    erewrite (sendMoney_signed _ _ _ _ _ _ _ _ g) by (eassumption || discriminate).
    rewrite bind_normal.
    erewrite (sendMoney_signed _ _ _ _ _ _ _ _ g)
      by (eassumption || apply snoc_neq_nil).
    rewrite bind_normal.
    erewrite (sendMoney_signed _ _ _ _ _ _ _ _ g)
      by (eassumption || apply snoc_neq_nil).
    eexists. split; reflexivity. }
  exists c. split; [exact Hm|]. split; [exact Hl|].
  apply reachable_inv, (main_reachable fuel dr), Hm.
Qed.

End Props.


(** ** Witnesses, under the symbolic instances of [Crypto.Ideal] *)
Section Witnesses.
Import Crypto.Ideal.

Definition w_draws : Draws :=
  {| genesis_draw := (1700000000000, r3)%Z; draw1 := (1700000000001, r3)%Z;
     draw2 := (1700000000002, r13)%Z; draw3 := (1700000000003, r23)%Z |}.

Example sendMoney_appends_witness :
  sendMoney 10 1700000000001 r3 w_c0 (Wallet_new 0) 50 (pub 1) =
    Normal {| chain := (chain w_c0 ++
               [new_Block (hash (last (chain w_c0) w_genesis))
                          (mkTransaction 50 (publicKey_of 0) (pub 1)) 1700000000001 r3])%list |}.
Proof.
  apply (sendMoney_appends _ _ _ _ _ _ _ 4); [discriminate | vm_compute; reflexivity].
Defined.

Example main_result_witness :
  exists c, main 10 w_draws = Normal c /\ ledger c = script_ledger /\
            valid_chain c = true.
Proof. apply (main_result 10 w_draws 4 4 4); vm_compute; reflexivity. Defined.

End Witnesses.

End Wallet.
